(** * Long-term memory chatbot with a collection schema

    A shallow embedding of the notebook
    [module-5/memoryschema_collection.ipynb]: the environment set-up helper
    [_set_env], the pydantic schemas [Memory] and [MemoryCollection], the two
    graph nodes [call_model] and [write_memory], and the graph [builder].

    The notebook is glue code around external services (the key-value store,
    the chat model, the Trustcall extractor, [uuid.uuid4], the graph runner).
    The nodes are therefore embedded as programs over an interface of external
    calls; what a node does is read off the sequence of calls it performs,
    whatever the outside world answers. *)

From Stdlib Require Import Ascii String.
From stdpp Require Import gmap strings list fin_maps pretty.

Local Open Scope string_scope.

(** ** Python values and records *)

(** Scalars that occur as values of a stored dictionary. *)
Inductive pyval : Type :=
| VNone
| VBool (b : bool)
| VInt (z : Z)
| VStr (s : string).

(** [str(v)], as used by an f-string replacement field. *)
Definition py_str (v : pyval) : string :=
  match v with
  | VNone => "None"
  | VBool true => "True"
  | VBool false => "False"
  | VInt z => pretty z
  | VStr s => s
  end.

(** A namespace is a tuple of strings. *)
Abbreviation namespace_t := (list string) (only parsing).

(** The value stored under a key: a [dict[str, Any]]. *)
Abbreviation pydict := (gmap string pyval) (only parsing).

(** An item as returned by [store.search]. *)
Module Item.
Record t : Type := mk { namespace : namespace_t; key : string; value : pydict }.
End Item.

Inductive Message : Type :=
| SystemMessage (content : string)
| HumanMessage (content : string)
| AIMessage (content : string).

Record MessagesState : Type := { messages : list Message }.

(** [config["configurable"]] *)
Record RunnableConfig : Type := { configurable : gmap string string }.

(** ** The schemas (cells 4 and 28) *)

Record Memory : Type := { content : string }.

Record MemoryCollection : Type := { memories : list Memory }.

(** The declarations behind the two records, as pydantic keeps them in
    [model_fields]: the annotation and the description of each field. *)
Inductive annotation : Type :=
| str_ann
| list_ann (elem : annotation)
| model_ann (name : string).

Record FieldInfo : Type := { field_annotation : annotation; description : string }.

Record BaseModel : Type :=
  { model_name : string; model_fields : list (string * FieldInfo) }.

Definition Memory_model : BaseModel :=
  {| model_name := "Memory";
     model_fields :=
       [("content",
         {| field_annotation := str_ann;
            description := "The main content of the memory. For example: User expressed interest in learning about French." |})] |}.

Definition MemoryCollection_model : BaseModel :=
  {| model_name := "MemoryCollection";
     model_fields :=
       [("memories",
         {| field_annotation := list_ann (model_ann (model_name Memory_model));
            description := "A list of memories about the user." |})] |}.

(** The schema of the notebook: its model classes, in order of definition. *)
Definition schema : list BaseModel := [Memory_model; MemoryCollection_model].

(** Every field of a list of classes, with the class that declares it. *)
Definition declared_fields (classes : list BaseModel)
  : list (string * string * annotation) :=
  c ← classes;
  (fun f => (model_name c, f.1, field_annotation f.2)) <$> model_fields c.

(** [m.model_dump()] and [m.model_dump(mode="json")] of a [Memory]: its only
    field is a string, so both modes give the same dictionary. *)
Definition model_dump (m : Memory) : pydict := {[ "content" := VStr (content m) ]}.

(** ** External calls *)

(** An entry of the "existing" argument of the extractor:
    [(key, tool_name, value)]. *)
Definition existing_t : Type := string * string * pydict.

(** The dictionary passed to [trustcall_extractor.invoke]. *)
Record ExtractorInput : Type :=
  { in_messages : list Message; existing : option (list existing_t) }.

(** The dictionary it returns; the extractor is created with [tools=[Memory]],
    so its responses are [Memory] instances. *)
Record ExtractorResult : Type :=
  { out_messages : list Message;
    responses : list Memory;
    response_metadata : list (gmap string string) }.

Inductive exn : Type :=
| KeyError (k : string)
| ValueError (msg : string)
| TypeError (msg : string)
| EOFError
| GraphRecursionError.

Inductive call : Type :=
| store_search (namespace : namespace_t)
| store_put (namespace : namespace_t) (key : string) (value : pydict)
| model_invoke (input : list Message)
| merge_message_runs (msgs : list Message)
| trustcall_extractor_invoke (input : ExtractorInput)
| uuid4
| node_started (name : string)
| node_finished (name : string).

Definition answer (c : call) : Type :=
  match c with
  | store_search _ => list Item.t
  | store_put _ _ _ => unit
  | model_invoke _ => Message
  | merge_message_runs _ => list Message
  | trustcall_extractor_invoke _ => ExtractorResult
  | uuid4 => string
  | node_started _ => unit
  | node_finished _ => unit
  end.

(** Programs: return, raise, or perform an external call and continue with its
    answer. *)
Inductive prog (R : Type) : Type :=
| Ret (r : R)
| Raise (e : exn)
| Do (c : call) (k : answer c -> prog R).

Arguments Ret {R} r.
Arguments Raise {R} e.
Arguments Do {R} c k.

Fixpoint bind {A B : Type} (p : prog A) (f : A -> prog B) : prog B :=
  match p with
  | Ret a => f a
  | Raise e => Raise e
  | Do c k => Do c (fun x => bind (k x) f)
  end.

#[global] Instance prog_ret : MRet prog := @Ret.
#[global] Instance prog_bind : MBind prog := fun A B f p => bind p f.

Definition perform (c : call) : prog (answer c) := Do c Ret.

(** [d[k]] on a dictionary: [KeyError] when the key is missing. *)
Definition getitem {V : Type} (d : gmap string V) (k : string) : prog V :=
  match d !! k with
  | Some v => Ret v
  | None => Raise (KeyError k)
  end.

(** ** The nodes (cell 28) *)

Definition nl : string := String "010"%char EmptyString.

Definition MODEL_SYSTEM_MESSAGE (memory : string) : string :=
  "You are a helpful chatbot. You are designed to be a companion to a user. "
  +:+ nl +:+ nl +:+
  "You have a long term memory which keeps track of information you learn about the user over time."
  +:+ nl +:+ nl +:+
  "Current Memory (may include updated memories from this conversation): "
  +:+ nl +:+ nl +:+ memory.

Definition TRUSTCALL_INSTRUCTION : string :=
  "Reflect on following interaction. "
  +:+ nl +:+ nl +:+
  "Use the provided tools to retain any necessary memories about the user. "
  +:+ nl +:+ nl +:+
  "Use parallel tool calling to handle updates and insertions simultaneously:".

(** What a node returns: [None], or [{"messages": response}]. *)
Record StateUpdate : Type := { upd_messages : Message }.

(** The generator [f"- {mem.value['content']}" for mem in memories]. *)
Fixpoint memory_lines (memories : list Item.t) : prog (list string) :=
  match memories with
  | [] => Ret []
  | mem :: rest =>
      c ← getitem (Item.value mem) "content";
      lines ← memory_lines rest;
      Ret (("- " +:+ py_str c) :: lines)
  end.

Definition call_model (state : MessagesState) (config : RunnableConfig)
  : prog (option StateUpdate) :=
  user_id ← getitem (configurable config) "user_id";
  let namespace := ["memories"; user_id] in
  memories ← perform (store_search namespace);
  lines ← memory_lines memories;
  let info := String.concat nl lines in
  let system_msg := MODEL_SYSTEM_MESSAGE info in
  response ← perform (model_invoke (SystemMessage system_msg :: messages state));
  Ret (Some {| upd_messages := response |}).

(** The list comprehension of [write_memory], with its [if ... else None]. *)
Definition format_existing (tool_name : string) (existing_items : list Item.t)
  : option (list existing_t) :=
  match existing_items with
  | [] => None
  | _ => Some (map (fun existing_item =>
                      (Item.key existing_item, tool_name, Item.value existing_item))
                   existing_items)
  end.

(** The [for r, rmeta in zip(...)] loop. The default argument of [dict.get] is
    evaluated before the call, so [uuid.uuid4()] is called at every iteration. *)
Fixpoint save_memories (namespace : namespace_t)
    (pairs : list (Memory * gmap string string)) : prog unit :=
  match pairs with
  | [] => Ret tt
  | (r, rmeta) :: rest =>
      fresh ← perform uuid4;
      _ ← perform (store_put namespace
                     (default fresh (rmeta !! "json_doc_id"))
                     (model_dump r));
      save_memories namespace rest
  end.

Definition write_memory (state : MessagesState) (config : RunnableConfig)
  : prog (option StateUpdate) :=
  user_id ← getitem (configurable config) "user_id";
  let namespace := ["memories"; user_id] in
  existing_items ← perform (store_search namespace);
  let tool_name := "Memory" in
  let existing_memories := format_existing tool_name existing_items in
  updated_messages ← perform
    (merge_message_runs (SystemMessage TRUSTCALL_INSTRUCTION :: messages state));
  result ← perform (trustcall_extractor_invoke
                      {| in_messages := updated_messages;
                         existing := existing_memories |});
  _ ← save_memories namespace (zip (responses result) (response_metadata result));
  Ret None.

(** ** Running a program against an outside world *)

(** An event of a run: a call together with the answer it received. *)
Definition event : Type := { c : call & answer c }.

Definition Ev (c : call) (a : answer c) : event := existT c a.

(** The outside world answers every call and may change while doing so. An
    answer is any value of the type of the call: a run quantifies over all the
    answers the services can give. Failures of the services themselves (a
    network error, a store refusing a namespace) are not part of the interface:
    a call always gets an answer. *)
Record handler (W : Type) : Type := { handle : forall c : call, W -> answer c * W }.

Arguments handle {W} h c w.

Inductive outcome (R : Type) : Type :=
| Returned (r : R)
| Raised (e : exn).

Arguments Returned {R} r.
Arguments Raised {R} e.

(** The outcome of a program, the world it leaves and the events it caused. *)
Fixpoint run {W R : Type} (h : handler W) (p : prog R) (w : W)
  : outcome R * W * list event :=
  match p with
  | Ret r => (Returned r, w, [])
  | Raise e => (Raised e, w, [])
  | Do c k =>
      let aw := handle h c w in
      let r := run h (k aw.1) aw.2 in
      (r.1.1, r.1.2, Ev c aw.1 :: r.2)
  end.

Definition result_of {W R : Type} (x : outcome R * W * list event) : outcome R := x.1.1.
Definition world_of {W R : Type} (x : outcome R * W * list event) : W := x.1.2.
Definition trace_of {W R : Type} (x : outcome R * W * list event) : list event := x.2.

(** Observations on events: the namespace of a store access, the arguments
    of a put, a search with its answer, an identifier drawn, an extraction
    with its answer, and the start ([true]) or the end ([false]) of a node. *)
Definition call_namespace (c : call) : option (list string) :=
  match c with
  | store_search ns => Some ns
  | store_put ns _ _ => Some ns
  | _ => None
  end.

Definition call_put (c : call) : option (list string * string * gmap string pyval) :=
  match c with
  | store_put ns k v => Some (ns, k, v)
  | _ => None
  end.


Definition store_access (e : event) : option (list string) := call_namespace (projT1 e).

Definition put_of (e : event) : option (list string * string * gmap string pyval) :=
  call_put (projT1 e).


Definition search_of (e : event) : option (namespace_t * list Item.t) :=
  match e with
  | existT (store_search ns) items => Some (ns, items)
  | _ => None
  end.

Definition uuid_of (e : event) : option string :=
  match e with
  | existT uuid4 u => Some u
  | _ => None
  end.

Definition extraction_of (e : event) : option (ExtractorInput * ExtractorResult) :=
  match e with
  | existT (trustcall_extractor_invoke input) result => Some (input, result)
  | _ => None
  end.

(** ** The in-memory store *)

(** Modelled from the spec: the store is the [InMemoryStore] of the
    orchestration library, which the notebook only calls. The spec has "an
    in-process key-value store" whose records are scoped by a namespace, "a
    per-user key prefix": the store keeps, per namespace, a dictionary from
    keys to values; [put] assigns the value to the key, [get] reads it, and
    [search] lists the items of the namespaces under a prefix. *)
Abbreviation InMemoryStore := (gmap namespace_t (gmap string pydict)) (only parsing).

Definition put (s : InMemoryStore) (ns : namespace_t) (k : string) (v : pydict)
  : InMemoryStore :=
  <[ns := <[k := v]> (default ∅ (s !! ns))]> s.

Definition get (s : InMemoryStore) (ns : namespace_t) (k : string) : option pydict :=
  s !! ns ≫= (.!! k).

(** The keys held in a namespace. *)
Definition keys (s : InMemoryStore) (ns : namespace_t) : gset string :=
  dom (default ∅ (s !! ns)).

Definition namespace_items (entry : namespace_t * gmap string pydict) : list Item.t :=
  (fun kv => Item.mk entry.1 kv.1 kv.2) <$> map_to_list entry.2.

(** Modelled from the spec: [search] matches a namespace prefix and returns at
    most [limit] items (10 when the caller gives none, as both nodes do). The
    order of the items is the order of the dictionary. *)
Definition search (s : InMemoryStore) (pre : namespace_t) : list Item.t :=
  take 10 (mjoin (namespace_items <$>
                    filter (fun entry => pre `prefix_of` entry.1) (map_to_list s))).

(** The world seen by the graph: the store, and an outside world answering
    the calls that are not store accesses. *)
Definition with_store {O : Type} (h : handler O) : handler (InMemoryStore * O) :=
  {| handle c :=
       match c as c0 return InMemoryStore * O -> answer c0 * (InMemoryStore * O) with
       | store_search ns => fun w => (search w.1 ns, w)
       | store_put ns k v => fun w => (tt, (put w.1 ns k v, w.2))
       | c0 => fun w => let '(a, o) := handle h c0 w.2 in (a, (w.1, o))
       end |}.

(** A scripted outside world for examples: the model and the extractor give
    fixed answers, and the n-th identifier drawn is ["uuid-n"]. *)
Definition scripted (reply : Message) (result : ExtractorResult) : handler nat :=
  {| handle c :=
       match c as c0 return nat -> answer c0 * nat with
       | store_search _ => fun n => ([], n)
       | store_put _ _ _ => fun n => (tt, n)
       | model_invoke _ => fun n => (reply, n)
       | merge_message_runs msgs => fun n => (msgs, n)
       | trustcall_extractor_invoke _ => fun n => (result, n)
       | uuid4 => fun n => ("uuid-" +:+ pretty n, S n)
       | node_started _ => fun n => (tt, n)
       | node_finished _ => fun n => (tt, n)
       end |}.

(** ** The graph (cell 28) *)

#[global] Instance outcome_ret : MRet outcome := @Returned.
#[global] Instance outcome_bind : MBind outcome := fun A B f x =>
  match x with
  | Returned a => f a
  | Raised e => Raised e
  end.

Definition START : string := "__start__".
Definition END : string := "__end__".

Definition node_fn : Type := MessagesState -> RunnableConfig -> prog (option StateUpdate).

Record StateGraph : Type :=
  { nodes : gmap string node_fn;
    edges : gset (string * string) }.

(** Modelled from the spec: [StateGraph], [add_node], [add_edge] and [compile]
    belong to the orchestration library ("a two-node execution graph ...
    provided by an external orchestration library"). A graph under
    construction is its named nodes and its set of edges; adding a node or an
    edge extends them, and is refused for a name already taken or reserved.
    [StateGraph_new] is [StateGraph(MessagesState)]. *)
Definition StateGraph_new : StateGraph := {| nodes := ∅; edges := ∅ |}.

Definition add_node (name : string) (action : node_fn) (g : StateGraph)
  : outcome StateGraph :=
  if decide (is_Some (nodes g !! name)) then
    Raised (ValueError "Node already present.")
  else if decide (name = END \/ name = START) then
    Raised (ValueError "Node is reserved.")
  else
    Returned {| nodes := <[name := action]> (nodes g); edges := edges g |}.

Definition add_edge (start_key end_key : string) (g : StateGraph)
  : outcome StateGraph :=
  if decide (start_key = END) then
    Raised (ValueError "END cannot be a start node")
  else if decide (end_key = START) then
    Raised (ValueError "START cannot be an end node")
  else
    Returned {| nodes := nodes g; edges := {[ (start_key, end_key) ]} ∪ edges g |}.

Definition builder : outcome StateGraph :=
  b ← add_node "call_model" call_model StateGraph_new;
  b ← add_node "write_memory" write_memory b;
  b ← add_edge START "call_model" b;
  b ← add_edge "call_model" "write_memory" b;
  add_edge "write_memory" END b.

(** The checks of [compile]: edges start at [START] or at a node and end at
    [END] or at a node, and the graph has an entry point. *)
Definition known (g : StateGraph) (outer : string) (n : string) : bool :=
  bool_decide (n = outer) || bool_decide (is_Some (nodes g !! n)).

(** Modelled from the spec: the checkpointer given to [compile] is the
    [MemorySaver] of the orchestration library, "short-term (within-thread)
    memory". A compiled graph is the graph built together with its
    checkpointer; the store given to [compile] is the one the store calls of
    the nodes go to. *)
Inductive Checkpointer : Type := MemorySaver.

Record CompiledStateGraph : Type :=
  { builder_of : StateGraph;
    checkpointer : option Checkpointer }.

Definition compile (checkpointer : option Checkpointer) (g : StateGraph)
  : outcome CompiledStateGraph :=
  let es := elements (edges g) in
  if negb (forallb (fun e => known g START e.1) es) then
    Raised (ValueError "Found edge starting at unknown node")
  else if negb (existsb (fun e => bool_decide (e.1 = START)) es) then
    Raised (ValueError "Graph must have an entrypoint")
  else if negb (forallb (fun e => known g END e.2) es) then
    Raised (ValueError "Found edge ending at unknown node")
  else Returned {| builder_of := g; checkpointer := checkpointer |}.

Definition within_thread_memory : Checkpointer := MemorySaver.

(** [builder.compile(checkpointer=within_thread_memory,
    store=across_thread_memory)] *)
Definition graph : outcome CompiledStateGraph :=
  builder ≫= compile (Some within_thread_memory).

(** *** One turn of the compiled graph *)

(** Modelled from the spec: the runner of the compiled graph belongs to the
    orchestration library; the spec has the graph "executed sequentially per
    conversation turn". The runner follows the edges in supersteps: the nodes
    with an edge from [START] run first; after a superstep the updates of its
    nodes are applied to the state and the nodes with an edge from a node that
    just ran form the next one; the turn ends when no node is left to run. The
    runner reports when a node starts and when it finishes. An exception
    raised by a node propagates out of the turn. [successors] gives the nodes
    of the next superstep. *)
Definition successors (g : StateGraph) (ran : list string) : list string :=
  filter (fun n => Exists (fun a => (a, n) ∈ edges g) ran)
         (map_to_list (nodes g)).*1.

(** The reducer of the [messages] channel appends the update. *)
Definition add_messages (state : MessagesState) (upds : list StateUpdate)
  : MessagesState :=
  {| messages := (messages state ++ map upd_messages upds)%list |}.

(** Running one node, between the two reports of the runner. *)
Definition run_task (n : string) (action : node_fn)
    (state : MessagesState) (config : RunnableConfig) : prog (option StateUpdate) :=
  _ ← perform (node_started n);
  upd ← action state config;
  _ ← perform (node_finished n);
  Ret upd.

(** The nodes of a superstep all read the state the superstep started from. *)
Fixpoint run_tasks (g : StateGraph) (active : list string)
    (state : MessagesState) (config : RunnableConfig) : prog (list StateUpdate) :=
  match active with
  | [] => Ret []
  | n :: rest =>
      action ← getitem (nodes g) n;
      upd ← run_task n action state config;
      upds ← run_tasks g rest state config;
      Ret (option_list upd ++ upds)%list
  end.

Fixpoint supersteps (limit : nat) (g : StateGraph) (active : list string)
    (state : MessagesState) (config : RunnableConfig) : prog MessagesState :=
  match active with
  | [] => Ret state
  | _ =>
      match limit with
      | 0 => Raise GraphRecursionError
      | S limit' =>
          upds ← run_tasks g active state config;
          supersteps limit' g (successors g active) (add_messages state upds) config
      end
  end.

(** Modelled from the spec: what a graph compiled with a checkpointer asks of
    the configuration before anything runs. The runner refuses a configuration
    whose "configurable" is missing or empty, and the checkpointer then reads
    [config["configurable"]["thread_id"]] to find the state of the thread. *)
Definition thread_of (cg : CompiledStateGraph) (config : RunnableConfig)
  : prog (option string) :=
  match checkpointer cg with
  | None => Ret None
  | Some _ =>
      if decide (configurable config = ∅) then
        Raise (ValueError "Checkpointer requires one or more of the following 'configurable' keys: ['thread_id', 'checkpoint_ns', 'checkpoint_id']")
      else
        thread_id ← getitem (configurable config) "thread_id";
        Ret (Some thread_id)
  end.

(** Modelled from the spec: a turn ([graph.stream] or [graph.invoke]). The
    thread is looked up first; the supersteps then start from [state], the
    state the checkpointer holds for the thread with the input messages added;
    25 is the runner's default recursion limit. *)
Definition invoke (cg : CompiledStateGraph) (state : MessagesState)
    (config : RunnableConfig) : prog MessagesState :=
  _ ← thread_of cg config;
  supersteps 25 (builder_of cg) (successors (builder_of cg) [START]) state config.

(** ** Environment set-up (cell 2) *)

(** What the platform accepts in an environment: a name is not empty and has
    no "=" and no NUL character, a value has no NUL character. *)
Definition has_char (c : ascii) (s : string) : bool :=
  existsb (Ascii.eqb c) (list_ascii_of_string s).

Definition name_ok (var : string) : bool :=
  negb (String.eqb var "") && negb (has_char "="%char var)
  && negb (has_char "000"%char var).

Definition value_ok (value : string) : bool := negb (has_char "000"%char value).

Definition acceptable (var value : string) : Prop := name_ok var && value_ok value.

(** The part of the process [_set_env] works on: the environment, the lines
    the user is going to type, and the prompts shown so far. The environment
    of a process only holds names and values the platform accepts. *)
Record Process : Type :=
  { environ : gmap string string;
    tty : list string;
    prompts : list string;
    environ_ok : bool_decide (map_Forall acceptable environ) }.

(** Computations on the process that return or raise. *)
Definition M (A : Type) : Type := Process -> outcome A * Process.

#[global] Instance M_ret : MRet M := fun A a p => (Returned a, p).
#[global] Instance M_bind : MBind M := fun A B f m p =>
  match m p with
  | (Returned a, p') => f a p'
  | (Raised e, p') => (Raised e, p')
  end.

(** [os.environ.get(var)] *)
Definition os_environ_get (var : string) : M (option string) :=
  fun p => (Returned (environ p !! var), p).

(** [os.environ[var] = value]: the value must be a string, and the
    assignment passes name and value to [putenv], which raises [ValueError]
    ([OSError] for the empty name on some platforms) when it does not accept
    them; the environment is then left as it was. *)
Definition os_environ_setitem (var : string) (value : option string) : M unit :=
  fun p =>
    match value with
    | Some v =>
        match decide (acceptable var v) with
        | left H =>
            (Returned tt,
             {| environ := <[var := v]> (environ p); tty := tty p; prompts := prompts p;
                environ_ok :=
                  bool_decide_pack _
                    (map_Forall_insert_2 acceptable _ _ _ H
                       (bool_decide_unpack _ (environ_ok p))) |})
        | right _ =>
            (Raised (ValueError (if has_char "000"%char var || has_char "000"%char v
                                 then "embedded null byte"
                                 else "illegal environment variable name")), p)
        end
    | None => (Raised (TypeError "str expected, not NoneType"), p)
    end.

(** [getpass.getpass(prompt)]: shows the prompt and reads one line. *)
Definition getpass (prompt : string) : M string :=
  fun p =>
    let shown := (prompts p ++ [prompt])%list in
    match tty p with
    | line :: rest =>
        (Returned line,
         {| environ := environ p; tty := rest; prompts := shown;
            environ_ok := environ_ok p |})
    | [] =>
        (Raised EOFError,
         {| environ := environ p; tty := []; prompts := shown;
            environ_ok := environ_ok p |})
    end.

(** [not v] for a value that is [None] or a string. *)
Definition py_not (v : option string) : bool :=
  match v with
  | None => true
  | Some s => bool_decide (s = "")
  end.

Definition _set_env (var : string) : M unit :=
  env_value ← os_environ_get var;
  env_value ← (if py_not env_value
               then line ← getpass (var +:+ ": "); mret (Some line)
               else mret env_value);
  os_environ_setitem var env_value.

(** The statements of cell 2 after the definition. *)
Definition cell_2 : M unit :=
  _ ← _set_env "LANGSMITH_API_KEY";
  _ ← os_environ_setitem "LANGSMITH_TRACING" (Some "true");
  os_environ_setitem "LANGSMITH_PROJECT" (Some "langchain-academy").

(** Every call a program can perform, whatever answers it gets, satisfies
    [P]. *)
Inductive all_calls {R : Type} (P : call -> Prop) : prog R -> Prop :=
| all_calls_Ret r : all_calls P (Ret r)
| all_calls_Raise e : all_calls P (Raise e)
| all_calls_Do c k : P c -> (forall a, all_calls P (k a)) -> all_calls P (Do c k).



(** The store after a sequence of puts. *)
Definition apply_puts (s : InMemoryStore)
    (puts : list (list string * string * gmap string pyval)) : InMemoryStore :=
  foldl (fun s p => put s p.1.1 p.1.2 p.2) s puts.

(** The events of one iteration of the loop of [write_memory]. *)
Definition iteration (ns : list string)
    (x : Memory * gmap string string * string) : list event :=
  [Ev uuid4 x.2;
   Ev (store_put ns
         (match x.1.2 !! "json_doc_id" with Some k => k | None => x.2 end)
         {[ "content" := VStr (content x.1.1) ]}) tt].

(** ** The conversation of cells 29 to 31, as an example *)

Definition example_config : RunnableConfig :=
  {| configurable := {[ "thread_id" := "1"; "user_id" := "1" ]} |}.

Definition example_state : MessagesState :=
  {| messages := [HumanMessage "Hi, my name is Lance"] |}.

Definition example_reply : Message :=
  AIMessage "Hi Lance! It's great to meet you. How can I assist you today?".

(** The extractor inserts one memory and rewrites the one kept under key "0". *)
Definition example_result : ExtractorResult :=
  {| out_messages := [];
     responses := [ {| content := "User's name is Lance." |};
                    {| content := "User likes to bike around San Francisco." |} ];
     response_metadata := [ {[ "id" := "call_1" ]};
                            {[ "id" := "call_2"; "json_doc_id" := "0" ]} ] |}.

Definition example_world : handler nat := scripted example_reply example_result.

Definition example_store : gmap (list string) (gmap string (gmap string pyval)) :=
  put ∅ ["memories"; "1"] "0" {[ "content" := VStr "User likes to bike." ]}.

(** A configuration with a thread but no user. *)
Definition anonymous_config : RunnableConfig :=
  {| configurable := {[ "thread_id" := "1" ]} |}.

(** ** The other cells of the notebook *)

(** Cell 5. *)
Definition cell_5 : M unit := _set_env "OPENAI_API_KEY".

(** [l[i]] on a list raises [IndexError] when [i] is out of range. In cell 11
    the error is kept as the result of the cell: the statements after the one
    that raises are not run. *)
Inductive IndexError : Type := list_index_out_of_range.

(** Cell 11, after the creation of the store: the first two memories of the
    collection produced by cell 7 are saved under fresh keys. *)
Definition cell_11 (memory_collection : MemoryCollection) : prog (IndexError + unit) :=
  let user_id := "1" in
  let namespace_for_memory := [user_id; "memories"] in
  key ← perform uuid4;
  match memories memory_collection !! 0 with
  | None => Ret (inl list_index_out_of_range)
  | Some m0 =>
      let value := model_dump m0 in
      _ ← perform (store_put namespace_for_memory key value);
      key ← perform uuid4;
      match memories memory_collection !! 1 with
      | None => Ret (inl list_index_out_of_range)
      | Some m1 =>
          let value := model_dump m1 in
          _ ← perform (store_put namespace_for_memory key value);
          Ret (inr tt)
      end
  end.

(** Cell 20: the responses of a first extraction become the "existing"
    memories of the next one, each with its position as id. *)
Definition existing_memories (responses : list Memory) : option (list existing_t) :=
  let tool_name := "Memory" in
  match responses with
  | [] => None
  | _ => Some (imap (fun i memory => (pretty i, tool_name, model_dump memory)) responses)
  end.


(** More observations: a call of the chat model and a call of
    [merge_message_runs], each with its answer. *)
Definition model_call_of (e : event) : option (list Message * Message) :=
  match e with
  | existT (model_invoke input) reply => Some (input, reply)
  | _ => None
  end.

Definition merge_call_of (e : event) : option (list Message * list Message) :=
  match e with
  | existT (merge_message_runs msgs) merged => Some (msgs, merged)
  | _ => None
  end.

(** The key under which the loop of [write_memory] stores a pair. *)
Definition pair_key (x : Memory * gmap string string * string) : string :=
  match x.1.2 !! "json_doc_id" with Some k => k | None => x.2 end.

(** The keys a sequence of puts writes in a namespace. *)
Definition written_keys (ns : list string)
    (puts : list (list string * string * gmap string pyval)) : gset string :=
  list_to_set (omap (fun p => if decide (p.1.1 = ns) then Some p.1.2 else None) puts).


(** * Properties *)

(** ** Running programs *)

Section Run.
Context {W : Type} (h : handler W).

Lemma run_bind_result {A B} (p : prog A) (f : A -> prog B) (w : W) :
  result_of (run h (p ≫= f) w) =
  match result_of (run h p w) with
  | Returned a => result_of (run h (f a) (world_of (run h p w)))
  | Raised e => Raised e
  end.
Proof.
  revert w. induction p as [a|e|c k IH]; intros w; try reflexivity.
  apply (IH (handle h c w).1).
Qed.

Lemma run_bind_world {A B} (p : prog A) (f : A -> prog B) (w : W) :
  world_of (run h (p ≫= f) w) =
  match result_of (run h p w) with
  | Returned a => world_of (run h (f a) (world_of (run h p w)))
  | Raised e => world_of (run h p w)
  end.
Proof.
  revert w. induction p as [a|e|c k IH]; intros w; try reflexivity.
  apply (IH (handle h c w).1).
Qed.

Lemma run_bind_trace {A B} (p : prog A) (f : A -> prog B) (w : W) :
  trace_of (run h (p ≫= f) w) =
  match result_of (run h p w) with
  | Returned a =>
      (trace_of (run h p w) ++ trace_of (run h (f a) (world_of (run h p w))))%list
  | Raised e => trace_of (run h p w)
  end.
Proof.
  revert w. induction p as [a|e|c k IH]; intros w; try reflexivity.
  specialize (IH (handle h c w).1 (handle h c w).2).
  change (Ev c (handle h c w).1
            :: trace_of (run h (k (handle h c w).1 ≫= f) (handle h c w).2) =
          match result_of (run h (k (handle h c w).1) (handle h c w).2) with
          | Returned a =>
              (Ev c (handle h c w).1
                 :: trace_of (run h (k (handle h c w).1) (handle h c w).2) ++
               trace_of (run h (f a)
                           (world_of (run h (k (handle h c w).1) (handle h c w).2))))%list
          | Raised e =>
              Ev c (handle h c w).1
                :: trace_of (run h (k (handle h c w).1) (handle h c w).2)
          end).
  rewrite IH.
  by destruct (result_of (run h (k (handle h c w).1) (handle h c w).2)).
Qed.

Lemma run_bind {A B} (p : prog A) (f : A -> prog B) (w : W) :
  run h (p ≫= f) w =
  match result_of (run h p w) with
  | Returned a =>
      let r := run h (f a) (world_of (run h p w)) in
      (result_of r, world_of r, (trace_of (run h p w) ++ trace_of r)%list)
  | Raised e => (Raised e, world_of (run h p w), trace_of (run h p w))
  end.
Proof.
  pose proof (run_bind_result p f w) as Hr.
  pose proof (run_bind_world p f w) as Hw.
  pose proof (run_bind_trace p f w) as Ht.
  destruct (run h (p ≫= f) w) as [[o w'] t].
  unfold result_of, world_of, trace_of in *. cbn in Hr, Hw, Ht. subst.
  by destruct (run h p w).1.1.
Qed.

Lemma all_calls_bind {A B} (P : call -> Prop) (p : prog A) (f : A -> prog B) :
  all_calls P p -> (forall a, all_calls P (f a)) -> all_calls P (p ≫= f).
Proof.
  intros Hp Hf. induction Hp as [r|e|c k Hc Hk IH].
  - apply Hf.
  - constructor.
  - change (all_calls P (Do c (fun x => k x ≫= f))).
    constructor; [done|]. apply IH.
Qed.

Lemma all_calls_trace {A} (P : call -> Prop) (p : prog A) (w : W) :
  all_calls P p -> Forall (fun e => P (projT1 e)) (trace_of (run h p w)).
Proof.
  intros Hp. revert w. induction Hp as [r|e|c k Hc Hk IH]; intros w.
  - constructor.
  - constructor.
  - change (Forall (fun e => P (projT1 e))
              (Ev c (handle h c w).1
                 :: trace_of (run h (k (handle h c w).1) (handle h c w).2))).
    constructor; [done|]. apply IH.
Qed.

Lemma run_perform_trace {B} (c : call) (f : answer c -> prog B) (w : W) :
  trace_of (run h (perform c ≫= f) w) =
  Ev c (handle h c w).1 :: trace_of (run h (f (handle h c w).1) (handle h c w).2).
Proof. reflexivity. Qed.

Lemma run_perform_result {B} (c : call) (f : answer c -> prog B) (w : W) :
  result_of (run h (perform c ≫= f) w) =
  result_of (run h (f (handle h c w).1) (handle h c w).2).
Proof. reflexivity. Qed.

Lemma run_perform_world {B} (c : call) (f : answer c -> prog B) (w : W) :
  world_of (run h (perform c ≫= f) w) =
  world_of (run h (f (handle h c w).1) (handle h c w).2).
Proof. reflexivity. Qed.

Lemma run_getitem_Some {V B} (d : gmap string V) k v (f : V -> prog B) (w : W) :
  d !! k = Some v -> run h (getitem d k ≫= f) w = run h (f v) w.
Proof. intros E. unfold getitem. by rewrite E. Qed.

Lemma run_getitem_None {V B} (d : gmap string V) k (f : V -> prog B) (w : W) :
  d !! k = None -> run h (getitem d k ≫= f) w = (Raised (KeyError k), w, []).
Proof. intros E. unfold getitem. by rewrite E. Qed.

End Run.

(** ** The store *)

Lemma get_put_eq (s : InMemoryStore) ns k v : get (put s ns k v) ns k = Some v.
Proof. unfold get, put. rewrite lookup_insert_eq. cbn. apply lookup_insert_eq. Qed.

Lemma get_put_ne (s : InMemoryStore) ns k v ns' k' :
  (ns, k) ≠ (ns', k') -> get (put s ns k v) ns' k' = get s ns' k'.
Proof.
  intros Hne. unfold get, put.
  destruct (decide (ns = ns')) as [<-|Hns].
  - rewrite lookup_insert_eq. cbn.
    rewrite lookup_insert_ne by congruence.
    by destruct (s !! ns).
  - by rewrite lookup_insert_ne.
Qed.

Lemma put_other_namespace (s : InMemoryStore) ns k v ns' :
  ns ≠ ns' -> put s ns k v !! ns' = s !! ns'.
Proof. intros Hne. unfold put. by rewrite lookup_insert_ne. Qed.

Lemma keys_put (s : InMemoryStore) ns k v :
  keys (put s ns k v) ns = {[ k ]} ∪ keys s ns.
Proof. unfold keys, put. rewrite lookup_insert_eq. cbn. apply dom_insert_L. Qed.

Lemma keys_put_update (s : InMemoryStore) ns k v :
  k ∈ keys s ns -> keys (put s ns k v) ns = keys s ns.
Proof.
  intros Hk. rewrite keys_put. apply subseteq_union_1_L.
  by apply singleton_subseteq_l.
Qed.

Lemma keys_put_insert (s : InMemoryStore) ns k v :
  k ∉ keys s ns -> size (keys (put s ns k v) ns) = S (size (keys s ns)).
Proof.
  intros Hk. rewrite keys_put, size_union, size_singleton; [done|].
  intros x Hx. apply elem_of_singleton in Hx. by subst.
Qed.

Lemma apply_puts_other_namespace (s : InMemoryStore) puts ns' :
  Forall (fun p => p.1.1 ≠ ns') puts -> apply_puts s puts !! ns' = s !! ns'.
Proof.
  intros HF. revert s. induction HF as [|p puts Hp _ IH]; intros s; [done|].
  cbn. rewrite IH. by apply put_other_namespace.
Qed.

(** With the store in the world, the store a run leaves is the one it found
    with the puts of the run applied in order. *)
Lemma with_store_world {O R} (ho : handler O) (p : prog R) s o :
  (world_of (run (with_store ho) p (s, o))).1 =
  apply_puts s (omap put_of (trace_of (run (with_store ho) p (s, o)))).
Proof.
  revert s o. induction p as [a|e|c k IH]; intros s o; try reflexivity.
  destruct c; cbn;
    try (destruct (handle ho _ o) as [a o'] eqn:E; cbn; apply IH).
  - apply IH.
  - apply (IH tt).
Qed.

(** ** The loop of [write_memory] *)

Section Nodes.
Context {W : Type} (h : handler W).

Lemma save_memories_returns ns pairs (w : W) :
  result_of (run h (save_memories ns pairs) w) = Returned tt.
Proof.
  revert w. induction pairs as [|[r rmeta] rest IH]; intros w; [done|].
  apply IH.
Qed.

(** Each iteration draws one identifier and then performs one put. *)
Lemma save_memories_trace ns pairs (w : W) :
  let t := trace_of (run h (save_memories ns pairs) w) in
  length (omap uuid_of t) = length pairs /\
  t = mjoin (iteration ns <$> zip pairs (omap uuid_of t)).
Proof.
  revert w. induction pairs as [|[r rmeta] rest IH]; intros w; [done|].
  cbn zeta.
  set (a1 := handle h uuid4 w).
  set (c2 := store_put ns (default a1.1 (rmeta !! "json_doc_id")) (model_dump r)).
  set (a2 := handle h c2 a1.2).
  change (trace_of (run h (save_memories ns ((r, rmeta) :: rest)) w))
    with (Ev uuid4 a1.1 :: Ev c2 a2.1 :: trace_of (run h (save_memories ns rest) a2.2)).
  destruct (IH a2.2) as [Hlen Htr].
  set (t := trace_of (run h (save_memories ns rest) a2.2)) in *.
  change (omap uuid_of (Ev uuid4 a1.1 :: Ev c2 a2.1 :: t))
    with (a1.1 :: omap uuid_of t).
  split; [cbn; by rewrite Hlen|].
  change (Ev uuid4 a1.1 :: Ev c2 a2.1 :: t =
          (iteration ns (r, rmeta, a1.1) ++
           mjoin (iteration ns <$> zip rest (omap uuid_of t)))%list).
  rewrite <- Htr. clearbody t a2. destruct a2 as [[] w2].
  unfold iteration, c2, model_dump. cbn.
  by destruct (rmeta !! "json_doc_id").
Qed.

Lemma write_memory_run state config user_id (w : W) :
  configurable config !! "user_id" = Some user_id ->
  let ns := ["memories"; user_id] in
  let a1 := handle h (store_search ns) w in
  let c2 := merge_message_runs (SystemMessage TRUSTCALL_INSTRUCTION :: messages state) in
  let a2 := handle h c2 a1.2 in
  let c3 := trustcall_extractor_invoke
              {| in_messages := a2.1; existing := format_existing "Memory" a1.1 |} in
  let a3 := handle h c3 a2.2 in
  let loop := run h (save_memories ns (zip (responses a3.1) (response_metadata a3.1))) a3.2 in
  run h (write_memory state config) w =
  (Returned None, world_of loop,
   Ev (store_search ns) a1.1 :: Ev c2 a2.1 :: Ev c3 a3.1 :: trace_of loop).
Proof.
  intros Hu. cbn zeta. unfold write_memory.
  rewrite (run_getitem_Some h _ _ _ _ w Hu).
  set (ns := ["memories"; user_id]).
  set (a1 := handle h (store_search ns) w).
  set (c2 := merge_message_runs _).
  set (a2 := handle h c2 a1.2).
  set (c3 := trustcall_extractor_invoke _).
  set (a3 := handle h c3 a2.2).
  set (pairs := zip _ _).
  pose proof (run_bind_result h (save_memories ns pairs)
                (fun _ => Ret (None : option StateUpdate)) a3.2) as Hr.
  pose proof (run_bind_world h (save_memories ns pairs)
                (fun _ => Ret (None : option StateUpdate)) a3.2) as Hw.
  pose proof (run_bind_trace h (save_memories ns pairs)
                (fun _ => Ret (None : option StateUpdate)) a3.2) as Ht.
  rewrite save_memories_returns in Hr, Hw, Ht.
  change (trace_of (run h (Ret None) (world_of (run h (save_memories ns pairs) a3.2))))
    with (@nil event) in Ht.
  rewrite app_nil_r in Ht.
  set (r := run h (save_memories ns pairs ≫= _) a3.2) in *.
  transitivity (result_of r, world_of r,
                Ev (store_search ns) a1.1 :: Ev c2 a2.1 :: Ev c3 a3.1 :: trace_of r);
    [reflexivity|].
  by rewrite Hr, Hw, Ht.
Qed.

End Nodes.

(** ** [call_model] *)

Section CallModel.
Context {W : Type} (h : handler W).

(** Formatting the memories calls nothing. *)
Lemma memory_lines_silent items (w : W) :
  world_of (run h (memory_lines items) w) = w /\
  trace_of (run h (memory_lines items) w) = [].
Proof.
  induction items as [|mem rest [IHw IHt]]; [done|].
  cbn [memory_lines]. unfold getitem.
  destruct (Item.value mem !! "content") as [c|]; [|done].
  change (world_of (run h (memory_lines rest ≫= fun lines => Ret (("- " +:+ py_str c) :: lines)) w) = w /\
          trace_of (run h (memory_lines rest ≫= fun lines => Ret (("- " +:+ py_str c) :: lines)) w) = []).
  rewrite run_bind_world, run_bind_trace, IHw, IHt.
  by destruct (result_of (run h (memory_lines rest) w)).
Qed.

(** The three ways [call_model] can go. *)
Lemma call_model_run state config (w : W) :
  match configurable config !! "user_id" with
  | None => run h (call_model state config) w = (Raised (KeyError "user_id"), w, [])
  | Some user_id =>
      let c1 := store_search ["memories"; user_id] in
      let a1 := handle h c1 w in
      match result_of (run h (memory_lines a1.1) a1.2) with
      | Raised e => run h (call_model state config) w = (Raised e, a1.2, [Ev c1 a1.1])
      | Returned lines =>
          let c2 := model_invoke
                      (SystemMessage (MODEL_SYSTEM_MESSAGE (String.concat nl lines))
                         :: messages state) in
          let a2 := handle h c2 a1.2 in
          run h (call_model state config) w =
          (Returned (Some {| upd_messages := a2.1 |}), a2.2, [Ev c1 a1.1; Ev c2 a2.1])
      end
  end.
Proof.
  unfold call_model.
  destruct (configurable config !! "user_id") as [user_id|] eqn:Hu.
  2: { by rewrite (run_getitem_None h _ _ _ w Hu). }
  rewrite (run_getitem_Some h _ _ _ _ w Hu). cbn zeta.
  set (c1 := store_search _). set (a1 := handle h c1 w).
  destruct (memory_lines_silent a1.1 a1.2) as [Hw Ht].
  set (k := fun lines : list string => _ ≫= _).
  pose proof (run_bind_result h (memory_lines a1.1) k a1.2) as Er.
  pose proof (run_bind_world h (memory_lines a1.1) k a1.2) as Ew.
  pose proof (run_bind_trace h (memory_lines a1.1) k a1.2) as Et.
  rewrite Hw in Er, Ew. rewrite Ht, Hw in Et.
  set (r := run h (memory_lines a1.1 ≫= k) a1.2) in *.
  destruct (result_of (run h (memory_lines a1.1) a1.2)) as [lines|e].
  - transitivity (result_of r, world_of r, Ev c1 a1.1 :: trace_of r); [reflexivity|].
    by rewrite Er, Ew, Et.
  - transitivity (result_of r, world_of r, Ev c1 a1.1 :: trace_of r); [reflexivity|].
    by rewrite Er, Ew, Et.
Qed.

End CallModel.

(** ** The calls of the two nodes *)

Lemma memory_lines_calls (P : call -> Prop) items : all_calls P (memory_lines items).
Proof.
  induction items as [|mem rest IH]; [constructor|].
  cbn [memory_lines]. unfold getitem.
  destruct (Item.value mem !! "content") as [c|]; [|constructor].
  change (all_calls P (memory_lines rest ≫= fun lines => Ret (("- " +:+ py_str c) :: lines))).
  apply all_calls_bind; [done|]. intros; constructor.
Qed.

Lemma save_memories_calls (P : call -> Prop) ns pairs :
  P uuid4 -> (forall k r, P (store_put ns k (model_dump r))) ->
  all_calls P (save_memories ns pairs).
Proof.
  intros Hu Hp. induction pairs as [|[r rmeta] rest IH]; [constructor|].
  constructor; [done|]. intros fresh.
  constructor; [apply Hp|]. intros _. apply IH.
Qed.

Lemma call_model_calls (P : call -> Prop) state config :
  (forall u, configurable config !! "user_id" = Some u ->
             P (store_search ["memories"; u])) ->
  (forall input, P (model_invoke input)) ->
  all_calls P (call_model state config).
Proof.
  intros Hs Hm. unfold call_model, getitem.
  destruct (configurable config !! "user_id") as [u|]; [|constructor].
  constructor; [by apply Hs|]. intros items.
  change (all_calls P
            (memory_lines items ≫= fun lines =>
               perform (model_invoke
                          (SystemMessage (MODEL_SYSTEM_MESSAGE (String.concat nl lines))
                             :: messages state)) ≫= fun response =>
               Ret (Some {| upd_messages := response |}))).
  apply all_calls_bind; [apply memory_lines_calls|]. intros lines.
  constructor; [apply Hm|]. intros; constructor.
Qed.

Lemma write_memory_calls (P : call -> Prop) state config :
  (forall u, configurable config !! "user_id" = Some u ->
             P (store_search ["memories"; u]) /\
             forall k r, P (store_put ["memories"; u] k (model_dump r))) ->
  (forall msgs, P (merge_message_runs msgs)) ->
  (forall input, P (trustcall_extractor_invoke input)) ->
  P uuid4 ->
  all_calls P (write_memory state config).
Proof.
  intros Hs Hm He Hu. unfold write_memory, getitem.
  destruct (configurable config !! "user_id") as [u|]; [|constructor].
  destruct (Hs u eq_refl) as [Hsearch Hput].
  constructor; [done|]. intros items.
  constructor; [apply Hm|]. intros msgs.
  constructor; [apply He|]. intros result.
  change (all_calls P
            (save_memories ["memories"; u]
               (zip (responses result) (response_metadata result)) ≫=
             fun _ => Ret (None : option StateUpdate))).
  apply all_calls_bind; [by apply save_memories_calls|]. intros; constructor.
Qed.

(** ** The graph *)

Lemma graph_returns :
  graph = Returned
    {| builder_of :=
         {| nodes := {[ "call_model" := call_model; "write_memory" := write_memory ]};
            edges := {[ (START, "call_model"); ("call_model", "write_memory");
                        ("write_memory", END) ]} |};
       checkpointer := Some within_thread_memory |}.
Proof. vm_compute. reflexivity. Qed.

Lemma graph_nodes g :
  graph = Returned g ->
  nodes (builder_of g) !! "call_model" = Some call_model /\
  nodes (builder_of g) !! "write_memory" = Some write_memory.
Proof.
  rewrite graph_returns. intros [= <-]. cbn [nodes builder_of].
  split; [apply lookup_insert_eq|].
  by rewrite lookup_insert_ne, lookup_singleton_eq.
Qed.

Lemma graph_successors g :
  graph = Returned g ->
  successors (builder_of g) [START] = ["call_model"] /\
  successors (builder_of g) ["call_model"] = ["write_memory"] /\
  successors (builder_of g) ["write_memory"] = [].
Proof. rewrite graph_returns. intros [= <-]. by vm_compute. Qed.

(** The graph of the notebook has a checkpointer: a turn needs a thread. *)
Lemma graph_thread g config :
  graph = Returned g ->
  match configurable config !! "thread_id" with
  | Some thread_id => thread_of g config = Ret (Some thread_id)
  | None => exists e, thread_of g config = Raise e
  end.
Proof.
  rewrite graph_returns. intros [= <-]. unfold thread_of. cbn [checkpointer].
  destruct (configurable config !! "thread_id") as [thread_id|] eqn:Hthread.
  - rewrite decide_False.
    + unfold getitem. by rewrite Hthread.
    + intros Hempty. by rewrite Hempty, lookup_empty in Hthread.
  - destruct (decide (configurable config = ∅)); [by eexists|].
    unfold getitem. rewrite Hthread. by eexists.
Qed.

(** ** One turn *)

Lemma omap_none {A B} (f : A -> option B) (l : list A) :
  Forall (fun x => f x = None) l -> omap f l = [].
Proof. induction 1 as [|x l Hx _ IH]; [done|]. cbn. by rewrite Hx. Qed.

Section Turn.
Context {W : Type} (h : handler W).



Lemma run_task_run n action state config (w : W) :
  let a0 := handle h (node_started n) w in
  let r := run h (action state config) a0.2 in
  run h (run_task n action state config) w =
  match result_of r with
  | Returned upd =>
      let a1 := handle h (node_finished n) (world_of r) in
      (Returned upd, a1.2,
       Ev (node_started n) a0.1 :: (trace_of r ++ [Ev (node_finished n) a1.1])%list)
  | Raised e => (Raised e, world_of r, Ev (node_started n) a0.1 :: trace_of r)
  end.
Proof.
  cbn zeta. unfold run_task.
  set (a0 := handle h (node_started n) w).
  set (k := fun upd : option StateUpdate => _ ≫= _).
  pose proof (run_bind h (action state config) k a0.2) as E.
  set (r := run h (action state config ≫= k) a0.2) in *.
  transitivity (result_of r, world_of r, Ev (node_started n) a0.1 :: trace_of r);
    [reflexivity|].
  rewrite E. by destruct (result_of (run h (action state config) a0.2)).
Qed.

End Turn.

Section Supersteps.
Context {W : Type} (h : handler W).

Lemma run_tasks_single g n action state config (w : W) :
  nodes g !! n = Some action ->
  let r := run h (run_task n action state config) w in
  run h (run_tasks g [n] state config) w =
  match result_of r with
  | Returned upd => (Returned (option_list upd), world_of r, trace_of r)
  | Raised e => (Raised e, world_of r, trace_of r)
  end.
Proof.
  intros Hn. cbn zeta. cbn [run_tasks].
  rewrite (run_getitem_Some h _ _ _ _ w Hn), run_bind.
  destruct (result_of (run h (run_task n action state config) w)) as [upd|e]; [|done].
  cbn. by rewrite !app_nil_r.
Qed.

Lemma supersteps_single limit g n action state config (w : W) :
  nodes g !! n = Some action ->
  let r := run h (run_task n action state config) w in
  run h (supersteps (S limit) g [n] state config) w =
  match result_of r with
  | Returned upd =>
      let r' := run h (supersteps limit g (successors g [n])
                         (add_messages state (option_list upd)) config) (world_of r) in
      (result_of r', world_of r', (trace_of r ++ trace_of r')%list)
  | Raised e => (Raised e, world_of r, trace_of r)
  end.
Proof.
  intros Hn. cbn zeta. cbn [supersteps].
  rewrite run_bind, (run_tasks_single g n action state config w Hn).
  by destruct (result_of (run h (run_task n action state config) w)).
Qed.

(** Without a thread in the configuration a turn raises before any call. *)
Lemma invoke_no_thread g state config (w : W) :
  graph = Returned g ->
  configurable config !! "thread_id" = None ->
  exists e, run h (invoke g state config) w = (Raised e, w, []).
Proof.
  intros Hg Hthread. pose proof (graph_thread g config Hg) as Ht. clear Hg.
  rewrite Hthread in Ht. destruct Ht as [e He].
  exists e. unfold invoke. by rewrite He.
Qed.

(** A turn of the notebook's graph: [call_model], then [write_memory]. *)
Lemma invoke_run g state config thread_id (w : W) :
  graph = Returned g ->
  configurable config !! "thread_id" = Some thread_id ->
  let r1 := run h (run_task "call_model" call_model state config) w in
  run h (invoke g state config) w =
  match result_of r1 with
  | Returned upd =>
      let state1 := add_messages state (option_list upd) in
      let r2 := run h (run_task "write_memory" write_memory state1 config) (world_of r1) in
      match result_of r2 with
      | Returned upd2 =>
          (Returned (add_messages state1 (option_list upd2)), world_of r2,
           (trace_of r1 ++ trace_of r2)%list)
      | Raised e => (Raised e, world_of r2, (trace_of r1 ++ trace_of r2)%list)
      end
  | Raised e => (Raised e, world_of r1, trace_of r1)
  end.
Proof.
  intros Hg Hthread. cbn zeta. unfold invoke.
  pose proof (graph_thread g config Hg) as Ht. rewrite Hthread in Ht. rewrite Ht.
  change (Ret (Some thread_id) ≫= ?f) with (f (Some thread_id)).
  destruct (graph_nodes g Hg) as [Hcm Hwm].
  destruct (graph_successors g Hg) as (-> & Hs1 & Hs2). clear Hg Ht.
  rewrite (supersteps_single 24 (builder_of g) _ _ state config w Hcm).
  destruct (result_of (run h (run_task "call_model" call_model state config) w))
    as [upd|e]; [|done].
  cbn zeta. rewrite Hs1.
  rewrite (supersteps_single 23 (builder_of g) _ _ _ config _ Hwm).
  destruct (result_of (run h (run_task "write_memory" write_memory _ config) _))
    as [upd2|e]; [|done].
  cbn zeta. rewrite Hs2. cbn. by rewrite app_nil_r.
Qed.

End Supersteps.

(** * The claims *)

(** ** Writing memories *)

(** C1. In [write_memory], every (response, metadata) pair of the zip of the
    extractor's responses with its response metadata causes exactly one put,
    into the namespace of the user: the puts of the node are, in order, one per
    pair; the key of a pair's put is the "json_doc_id" of its metadata when
    there is one, and otherwise the identifier drawn from [uuid4] in the same
    iteration; the value is the dump of the response. On the in-memory store
    the puts are applied in that order, and a put leaves its value under its
    key, replacing the record when the key is held already (the keys of the
    namespace are unchanged) and adding one when it is not. *)
Theorem write_memory_one_put_per_pair
    {W : Type} (h : handler W) (w : W) state config user_id :
  configurable config !! "user_id" = Some user_id ->
  let t := trace_of (run h (write_memory state config) w) in
  exists input result,
    omap extraction_of t = [(input, result)] /\
    let pairs := zip (responses result) (response_metadata result) in
    let drawn := omap uuid_of t in
    length drawn = length pairs /\
    omap put_of t =
      (fun x : Memory * gmap string string * string =>
         (["memories"; user_id],
          match x.1.2 !! "json_doc_id" with Some k => k | None => x.2 end,
          {[ "content" := VStr (content x.1.1) ]})) <$> zip pairs drawn /\
    (forall (O : Type) (ho : handler O) s o,
        let r := run (with_store ho) (write_memory state config) (s, o) in
        (world_of r).1 = apply_puts s (omap put_of (trace_of r))) /\
    (forall (s : InMemoryStore) ns k v,
        get (put s ns k v) ns k = Some v /\
        (k ∈ keys s ns -> keys (put s ns k v) ns = keys s ns) /\
        (k ∉ keys s ns -> size (keys (put s ns k v) ns) = S (size (keys s ns)))).
Proof.
  intros Hu t. subst t. rewrite (write_memory_run h state config user_id w Hu).
  cbn zeta.
  set (ns := ["memories"; user_id]).
  set (a1 := handle h (store_search ns) w).
  set (c2 := merge_message_runs _).
  set (a2 := handle h c2 a1.2).
  set (input := {| in_messages := a2.1; existing := format_existing "Memory" a1.1 |}).
  set (a3 := handle h (trustcall_extractor_invoke input) a2.2).
  set (pairs := zip (responses a3.1) (response_metadata a3.1)).
  destruct (save_memories_trace h ns pairs a3.2) as [Hlen Htr].
  set (loop := trace_of (run h (save_memories ns pairs) a3.2)) in *.
  exists input, a3.1.
  change (trace_of (Returned (None : option StateUpdate),
                    world_of (run h (save_memories ns pairs) a3.2),
                    Ev (store_search ns) a1.1 :: Ev c2 a2.1
                      :: Ev (trustcall_extractor_invoke input) a3.1 :: loop))
    with (Ev (store_search ns) a1.1 :: Ev c2 a2.1
            :: Ev (trustcall_extractor_invoke input) a3.1 :: loop).
  change (omap uuid_of (Ev (store_search ns) a1.1 :: Ev c2 a2.1
                          :: Ev (trustcall_extractor_invoke input) a3.1 :: loop))
    with (omap uuid_of loop).
  change (omap put_of (Ev (store_search ns) a1.1 :: Ev c2 a2.1
                         :: Ev (trustcall_extractor_invoke input) a3.1 :: loop))
    with (omap put_of loop).
  change (omap extraction_of (Ev (store_search ns) a1.1 :: Ev c2 a2.1
                                :: Ev (trustcall_extractor_invoke input) a3.1 :: loop))
    with ((input, a3.1) :: omap extraction_of loop).
  assert (Hshape : forall l : list (Memory * gmap string string * string),
             omap extraction_of (mjoin (iteration ns <$> l)) = [] /\
             omap put_of (mjoin (iteration ns <$> l)) =
               (fun x : Memory * gmap string string * string =>
                  (ns, match x.1.2 !! "json_doc_id" with Some k => k | None => x.2 end,
                   ({[ "content" := VStr (content x.1.1) ]} : gmap string pyval))) <$> l).
  { induction l as [|x l [IH1 IH2]]; [done|]. split.
    - exact IH1.
    - cbn [fmap list_fmap mjoin list_join]. unfold iteration at 1.
      cbn [app omap list_omap]. cbn -[omap]. f_equal. exact IH2. }
  destruct (Hshape (zip pairs (omap uuid_of loop))) as [Hex Hput].
  rewrite <- Htr in Hex, Hput.
  repeat split.
  - by rewrite Hex.
  - exact Hlen.
  - exact Hput.
  - intros O ho s o. apply with_store_world.
  - apply get_put_eq.
  - apply keys_put_update.
  - apply keys_put_insert.
Qed.

Lemma write_memory_one_put_per_pair_example :
  configurable example_config !! "user_id" = Some "1" /\
  let t := trace_of (run example_world (write_memory example_state example_config) 0) in
  exists input result,
    omap extraction_of t = [(input, result)] /\
    length (omap uuid_of t) = length (zip (responses result) (response_metadata result)) /\
    omap put_of t =
      (fun x : Memory * gmap string string * string =>
         (["memories"; "1"],
          match x.1.2 !! "json_doc_id" with Some k => k | None => x.2 end,
          {[ "content" := VStr (content x.1.1) ]})) <$>
        zip (zip (responses result) (response_metadata result)) (omap uuid_of t).
Proof.
  assert (Hu : configurable example_config !! "user_id" = Some "1") by reflexivity.
  split; [exact Hu|].
  destruct (write_memory_one_put_per_pair example_world 0 example_state
              example_config "1" Hu) as (input & result & H1 & H2 & H3 & _).
  exists input, result. exact (conj H1 (conj H2 H3)).
Defined.


(** C9. In [write_memory] the store is searched once, in the namespace of the
    user, and the extractor is invoked once; when the search returns no item
    the "existing" entry of the extractor's input is [None], not an empty list,
    and otherwise it is the list of the triples (key, "Memory", value) of the
    items, in the order of the search. *)
Theorem write_memory_existing
    {W : Type} (h : handler W) (w : W) state config user_id :
  configurable config !! "user_id" = Some user_id ->
  let t := trace_of (run h (write_memory state config) w) in
  exists items input result,
    omap search_of t = [(["memories"; user_id], items)] /\
    omap extraction_of t = [(input, result)] /\
    (items = [] -> existing input = None) /\
    (items <> [] ->
     existing input =
       Some (map (fun item => (Item.key item, "Memory", Item.value item)) items)).
Proof.
  intros Hu t. subst t. rewrite (write_memory_run h state config user_id w Hu).
  cbn zeta.
  set (ns := ["memories"; user_id]).
  set (a1 := handle h (store_search ns) w).
  set (c2 := merge_message_runs _).
  set (a2 := handle h c2 a1.2).
  set (input := {| in_messages := a2.1; existing := format_existing "Memory" a1.1 |}).
  set (a3 := handle h (trustcall_extractor_invoke input) a2.2).
  set (pairs := zip (responses a3.1) (response_metadata a3.1)).
  pose proof (all_calls_trace h
                (fun c => match c with uuid4 | store_put _ _ _ => True | _ => False end)
                (save_memories ns pairs) a3.2
                (save_memories_calls _ ns pairs I (fun _ _ => I))) as Hloop.
  set (loop := trace_of (run h (save_memories ns pairs) a3.2)) in *.
  assert (omap search_of loop = [] /\ omap extraction_of loop = []) as [Hs He].
  { clearbody loop. induction Hloop as [|[c a] l Hc _ [IH1 IH2]]; [done|].
    by destruct c. }
  exists a1.1, input, a3.1.
  change (omap search_of (Ev (store_search ns) a1.1 :: Ev c2 a2.1
                            :: Ev (trustcall_extractor_invoke input) a3.1 :: loop) =
          [(ns, a1.1)] /\
          omap extraction_of (Ev (store_search ns) a1.1 :: Ev c2 a2.1
                                :: Ev (trustcall_extractor_invoke input) a3.1 :: loop) =
          [(input, a3.1)] /\
          (a1.1 = [] -> format_existing "Memory" a1.1 = None) /\
          (a1.1 <> [] ->
           format_existing "Memory" a1.1 =
             Some (map (fun item => (Item.key item, "Memory", Item.value item)) a1.1))).
  change (omap search_of (Ev (store_search ns) a1.1 :: Ev c2 a2.1
                            :: Ev (trustcall_extractor_invoke input) a3.1 :: loop))
    with ((ns, a1.1) :: omap search_of loop).
  change (omap extraction_of (Ev (store_search ns) a1.1 :: Ev c2 a2.1
                                :: Ev (trustcall_extractor_invoke input) a3.1 :: loop))
    with ((input, a3.1) :: omap extraction_of loop).
  rewrite Hs, He. repeat split.
  - by intros ->.
  - by destruct a1.1.
Qed.

Lemma write_memory_existing_example :
  configurable example_config !! "user_id" = Some "1" /\
  let t := trace_of (run (with_store example_world)
                       (write_memory example_state example_config)
                       (example_store, 0)) in
  exists items input result,
    omap search_of t = [(["memories"; "1"], items)] /\
    omap extraction_of t = [(input, result)] /\
    (items = [] -> existing input = None) /\
    (items <> [] ->
     existing input =
       Some (map (fun item => (Item.key item, "Memory", Item.value item)) items)).
Proof.
  assert (Hu : configurable example_config !! "user_id" = Some "1") by reflexivity.
  split; [exact Hu|].
  exact (write_memory_existing (with_store example_world) (example_store, 0)
           example_state example_config "1" Hu).
Defined.


(** C5. Every value [write_memory] puts in the store is the dump of a
    [Memory]: a dictionary whose only key is "content", with a string under
    it. *)
Theorem write_memory_values
    {W : Type} (h : handler W) (w : W) state config :
  Forall (fun e => forall ns k (v : gmap string pyval),
              put_of e = Some (ns, k, v) ->
              dom v = {[ "content" ]} /\
              exists m : Memory, v = model_dump m /\
                                 v !! "content" = Some (VStr (content m)))
         (trace_of (run h (write_memory state config) w)).
Proof.
  apply (all_calls_trace h
           (fun c => forall ns k (v : gmap string pyval),
                call_put c = Some (ns, k, v) ->
                dom v = {[ "content" ]} /\
                exists m : Memory, v = model_dump m /\
                                   v !! "content" = Some (VStr (content m)))).
  apply write_memory_calls; try done.
  intros u _. split; [done|].
  intros k r ns k' v [= <- <- <-]. split.
  - unfold model_dump. by rewrite dom_singleton_L.
  - exists r. split; [done|]. apply lookup_singleton_eq.
Qed.

(** ** Namespaces *)

(** A search only returns items of namespaces that extend the prefix. *)
Lemma search_prefix (s : InMemoryStore) pre item :
  item ∈ search s pre -> pre `prefix_of` Item.namespace item.
Proof.
  unfold search. intros Hin. apply subseteq_take in Hin.
  apply list_elem_of_join in Hin as (l & Hitem & Hl).
  apply list_elem_of_fmap in Hl as (entry & -> & Hentry).
  apply list_elem_of_filter in Hentry as [Hpre _].
  unfold namespace_items in Hitem.
  apply list_elem_of_fmap in Hitem as (kv & -> & _). exact Hpre.
Qed.

(** The namespace of a user is not a prefix of the namespace of another. *)
Lemma namespace_of_other user_id other :
  other ≠ user_id -> ¬ ["memories"; user_id] `prefix_of` ["memories"; other].
Proof.
  intros Hne Hpre. apply prefix_cons_inv_2, prefix_cons_inv_1 in Hpre. congruence.
Qed.

(** With the store in the world, the answer to a search is a search of the
    store. *)
Lemma with_store_searches {O R} (ho : handler O) (p : prog R) s o :
  Forall (fun e => forall ns items,
              search_of e = Some (ns, items) ->
              exists s' : InMemoryStore, items = search s' ns)
         (trace_of (run (with_store ho) p (s, o))).
Proof.
  revert s o. induction p as [a|e|c k IH]; intros s o; try constructor.
  - destruct c; cbn; try (intros ns' items [=]); try done.
    subst. by exists s.
  - destruct c; cbn;
      try (destruct (handle ho _ o) as [a o'] eqn:E; cbn; apply IH).
    + apply IH.
    + apply (IH tt).
Qed.

(** The calls of a turn are the runner's reports and the calls of the two
    nodes. *)
Lemma run_task_calls (P : call -> Prop) n (action : node_fn) state config :
  P (node_started n) -> P (node_finished n) ->
  all_calls P (action state config) ->
  all_calls P (run_task n action state config).
Proof.
  intros Hs Hf Ha. unfold run_task.
  constructor; [done|]. intros _.
  change (all_calls P (action state config ≫= fun upd =>
                         perform (node_finished n) ≫= fun _ => Ret upd)).
  apply all_calls_bind; [done|]. intros upd.
  constructor; [done|]. intros; constructor.
Qed.

Lemma run_tasks_single_calls (P : call -> Prop) g n action state config :
  nodes g !! n = Some action ->
  all_calls P (run_task n action state config) ->
  all_calls P (run_tasks g [n] state config).
Proof.
  intros Hn Ha. cbn [run_tasks]. unfold getitem. rewrite Hn.
  change (all_calls P (run_task n action state config ≫= fun upd =>
                         Ret [] ≫= fun upds => Ret (option_list upd ++ upds)%list)).
  apply all_calls_bind; [done|]. intros; constructor.
Qed.

Lemma invoke_calls (P : call -> Prop) g state config :
  graph = Returned g ->
  (forall n, P (node_started n)) -> (forall n, P (node_finished n)) ->
  (forall st, all_calls P (call_model st config)) ->
  (forall st, all_calls P (write_memory st config)) ->
  all_calls P (invoke g state config).
Proof.
  intros Hg Hs Hf Hcall Hwrite. unfold invoke.
  destruct (graph_nodes g Hg) as [Hcm Hwm].
  destruct (graph_successors g Hg) as (-> & Hs1 & Hs2).
  pose proof (graph_thread g config Hg) as Ht. clear Hg.
  apply all_calls_bind.
  { destruct (configurable config !! "thread_id") as [thread_id|].
    - rewrite Ht. constructor.
    - destruct Ht as [e ->]. constructor. }
  intros _. cbn [supersteps]. apply all_calls_bind.
  { apply (run_tasks_single_calls P (builder_of g) _ _ state config Hcm).
    by apply run_task_calls. }
  intros upds. rewrite Hs1. cbn [supersteps]. apply all_calls_bind.
  { apply (run_tasks_single_calls P (builder_of g) _ _ _ config Hwm).
    by apply run_task_calls. }
  intros upds2. rewrite Hs2. constructor.
Qed.

(** C2. When the configuration gives the user id, every store access of
    [call_model], of [write_memory] and of a whole turn of the graph is in the
    namespace ("memories", user_id). Two users have two namespaces; on the
    in-memory store a turn for one user leaves what is stored in the namespace
    of any other user as it was, and none of the items its searches return is
    in the namespace of another user. *)
Theorem namespace_per_user
    {W : Type} (h : handler W) (w : W) g state config user_id :
  graph = Returned g ->
  configurable config !! "user_id" = Some user_id ->
  let ns := ["memories"; user_id] in
  let here (e : event) := forall ns', store_access e = Some ns' -> ns' = ns in
  Forall here (trace_of (run h (call_model state config) w)) /\
  Forall here (trace_of (run h (write_memory state config) w)) /\
  Forall here (trace_of (run h (invoke g state config) w)) /\
  (forall other, other ≠ user_id -> ["memories"; other] ≠ ns) /\
  (forall (O : Type) (ho : handler O) s o other,
      other ≠ user_id ->
      let r := run (with_store ho) (invoke g state config) (s, o) in
      (world_of r).1 !! ["memories"; other] = s !! ["memories"; other] /\
      Forall (fun e => forall ns' items,
                  search_of e = Some (ns', items) ->
                  Forall (fun item => Item.namespace item ≠ ["memories"; other]) items)
             (trace_of r)).
Proof.
  intros Hg Hu. cbn zeta.
  pose (P := fun c => forall ns', call_namespace c = Some ns' -> ns' = ["memories"; user_id]).
  pose proof (invoke_calls P g state config Hg) as Hinvoke. clear Hg.
  assert (Hcall : forall st, all_calls P (call_model st config)).
  { intros st. apply call_model_calls; [|done].
    intros u Hu' ns' [= <-]. congruence. }
  assert (Hwrite : forall st, all_calls P (write_memory st config)).
  { intros st. apply write_memory_calls; try done.
    intros u Hu'. assert (u = user_id) as -> by congruence.
    split; [by intros ns' [= <-]|]. by intros k r ns' [= <-]. }
  assert (Hturn : all_calls P (invoke g state config)) by (by apply Hinvoke).
  split; [|split; [|split; [|split]]].
  - apply (all_calls_trace h P), Hcall.
  - apply (all_calls_trace h P), Hwrite.
  - apply (all_calls_trace h P), Hturn.
  - intros other Hne. congruence.
  - intros O ho s o other Hne. set (r := run _ _ _). split.
    + unfold r. rewrite with_store_world. apply apply_puts_other_namespace.
      pose proof (all_calls_trace (with_store ho) P _ (s, o) Hturn) as Ht.
      induction Ht as [|[c a] t Hc _ IH]; [constructor|].
      destruct c; try exact IH. constructor; [|exact IH].
      cbn. rewrite (Hc _ eq_refl). congruence.
    + pose proof (all_calls_trace (with_store ho) P _ (s, o) Hturn) as Ht.
      pose proof (with_store_searches ho (invoke g state config) s o) as Hs.
      fold r in Ht, Hs. clearbody r.
      induction Ht as [|e t He _ IH]; [constructor|].
      apply Forall_cons in Hs as [Hse Hs]. constructor; [|by apply IH].
      intros ns' items Hsearch.
      destruct (Hse ns' items Hsearch) as [s' ->].
      assert (ns' = ["memories"; user_id]) as ->.
      { apply He. destruct e as [c a]. by destruct c; inversion Hsearch. }
      apply Forall_forall. intros item Hin Heq.
      apply search_prefix in Hin. rewrite Heq in Hin.
      by apply (namespace_of_other user_id other).
Qed.

Lemma namespace_per_user_example :
  exists g, graph = Returned g /\
    configurable example_config !! "user_id" = Some "1" /\
    Forall (fun e => forall ns', store_access e = Some ns' -> ns' = ["memories"; "1"])
           (trace_of (run (with_store example_world)
                        (invoke g example_state example_config) (example_store, 0))).
Proof.
  eexists. split; [exact graph_returns|].
  assert (Hu : configurable example_config !! "user_id" = Some "1") by reflexivity.
  split; [exact Hu|].
  exact (proj1 (proj2 (proj2
           (namespace_per_user (with_store example_world) (example_store, 0) _
              example_state example_config "1" graph_returns Hu)))).
Defined.


(** ** Frame of [call_model] *)

(** C8. [call_model] performs no put: its trace has none, whatever the state,
    the configuration and the world, and on the in-memory store the store it
    leaves is the store it found. [write_memory] does change the store. *)
Theorem call_model_store_unchanged :
  (forall (W : Type) (h : handler W) (w : W) state config,
      omap put_of (trace_of (run h (call_model state config) w)) = []) /\
  (forall (O : Type) (ho : handler O) s o state config,
      (world_of (run (with_store ho) (call_model state config) (s, o))).1 = s) /\
  (exists (ho : handler nat) s o state config,
      (world_of (run (with_store ho) (write_memory state config) (s, o))).1 ≠ s).
Proof.
  assert (Hno : forall (W : Type) (h : handler W) (w : W) state config,
             omap put_of (trace_of (run h (call_model state config) w)) = []).
  { intros W h w state config. apply omap_none.
    apply (all_calls_trace h (fun c => call_put c = None)).
    by apply call_model_calls. }
  split; [exact Hno|]. split.
  - intros O ho s o state config. by rewrite with_store_world, Hno.
  - exists example_world, ∅, 0, example_state, example_config.
    intros Heq.
    apply (f_equal (fun s : gmap (list string) (gmap string (gmap string pyval)) =>
                      get s ["memories"; "1"] "0")) in Heq.
    vm_compute in Heq. discriminate Heq.
Qed.

(** ** Order of the nodes in a turn *)



(** Projections of an explicit run. *)
Ltac project_run :=
  repeat match goal with
    | |- context [trace_of (?o, ?w, ?t)] => change (trace_of (o, w, t)) with t
    | |- context [result_of (?o, ?w, ?t)] => change (result_of (o, w, t)) with o
    | |- context [world_of (?o, ?w, ?t)] => change (world_of (o, w, t)) with w
    end.





(** ** The graph *)

(** C4. The graph built by the notebook has exactly two nodes, "call_model"
    and "write_memory", bound to the two functions of those names, and exactly
    three edges: from START to "call_model", from "call_model" to
    "write_memory" and from "write_memory" to END. *)
Theorem builder_graph :
  exists g, builder = Returned g /\
    dom (nodes g) = {[ "call_model"; "write_memory" ]} /\
    size (nodes g) = 2 /\
    nodes g !! "call_model" = Some call_model /\
    nodes g !! "write_memory" = Some write_memory /\
    edges g = {[ (START, "call_model"); ("call_model", "write_memory");
                 ("write_memory", END) ]} /\
    size (edges g) = 3.
Proof.
  exists {| nodes := {[ "call_model" := call_model; "write_memory" := write_memory ]};
            edges := {[ (START, "call_model"); ("call_model", "write_memory");
                        ("write_memory", END) ]} |}.
  split; [vm_compute; reflexivity|]. cbn [nodes edges].
  split; [vm_compute; reflexivity|].
  split; [vm_compute; reflexivity|].
  split; [apply lookup_insert_eq|].
  split; [by rewrite lookup_insert_ne, lookup_singleton_eq|].
  split; [reflexivity|]. vm_compute; reflexivity.
Qed.

(** ** The schema *)

(** C6. The schema of the notebook has two fields: the text field "content"
    of a memory, and the field "memories", a list of such memories. The dump
    of a memory has the declared field, and it holds the text. *)
Theorem memory_schema :
  declared_fields schema =
    [("Memory", "content", str_ann);
     ("MemoryCollection", "memories", list_ann (model_ann "Memory"))] /\
  length (declared_fields schema) = 2 /\
  (forall m : Memory,
      dom (model_dump m) = list_to_set (model_fields Memory_model).*1 /\
      model_dump m !! "content" = Some (VStr (content m))) /\
  (forall c : MemoryCollection,
      Forall (fun m => exists text : string, m = {| content := text |}) (memories c)).
Proof.
  split; [reflexivity|]. split; [reflexivity|]. split.
  - intros m. split.
    + unfold model_dump. rewrite dom_singleton_L. cbn. set_solver.
    + apply lookup_singleton_eq.
  - intros c. apply Forall_forall. intros [text] _. by exists text.
Qed.

(** ** Environment set-up *)

(** Two processes with the same environment, input and prompts are equal. *)
Lemma Process_eq (p q : Process) :
  environ p = environ q -> tty p = tty q -> prompts p = prompts q -> p = q.
Proof.
  destruct p, q. cbn. intros -> -> ->. f_equal. apply proof_irrel.
Qed.

(** What the environment holds, the platform accepts. *)
Lemma held_acceptable (p : Process) var v :
  environ p !! var = Some v -> acceptable var v.
Proof.
  intros Hv. exact (bool_decide_unpack _ (environ_ok p) var v Hv).
Qed.

Lemma setitem_accepted var v (p : Process) :
  acceptable var v ->
  (os_environ_setitem var (Some v) p).1 = Returned tt /\
  environ (os_environ_setitem var (Some v) p).2 = <[var := v]> (environ p) /\
  tty (os_environ_setitem var (Some v) p).2 = tty p /\
  prompts (os_environ_setitem var (Some v) p).2 = prompts p.
Proof.
  intros H. unfold os_environ_setitem.
  by destruct (decide (acceptable var v)).
Qed.

Lemma setitem_refused var v (p : Process) :
  ¬ acceptable var v ->
  exists msg, os_environ_setitem var (Some v) p = (Raised (ValueError msg), p).
Proof.
  intros H. unfold os_environ_setitem.
  destruct (decide (acceptable var v)); [done|]. by eexists.
Qed.

(** A call of [_set_env] that has to ask is the prompt and then the
    assignment of the line entered. *)
Lemma set_env_asks var (p : Process) :
  py_not (environ p !! var) = true ->
  _set_env var p =
  match getpass (var +:+ ": ") p with
  | (Returned line, p1) => os_environ_setitem var (Some line) p1
  | (Raised e, p1) => (Raised e, p1)
  end.
Proof.
  intros Hnot. unfold _set_env, os_environ_get, mbind, M_bind. cbn.
  rewrite Hnot. by destruct (getpass (var +:+ ": ") p) as [[line|e] p1].
Qed.

(** A call of [_set_env] that finds a value changes nothing. *)
Lemma set_env_keeps var (p : Process) :
  py_not (environ p !! var) = false -> _set_env var p = (Returned tt, p).
Proof.
  intros Hnot. unfold _set_env, os_environ_get, mbind, M_bind. cbn.
  rewrite Hnot. cbn.
  destruct (environ p !! var) as [v|] eqn:Hv; [|done].
  destruct (setitem_accepted var v p (held_acceptable p var v Hv)) as (Hr & He & Ht & Hp).
  destruct (os_environ_setitem var (Some v) p) as [o p1]. cbn in *. subst o.
  f_equal. apply Process_eq; [|done..]. rewrite He. by apply insert_id.
Qed.





(** * Further properties *)

(** ** More on the environment set-up *)




(** A call that asks and is given an acceptable line. *)
Lemma set_env_asked var (p : Process) line rest :
  py_not (environ p !! var) = true ->
  tty p = line :: rest ->
  acceptable var line ->
  (_set_env var p).1 = Returned tt /\
  environ (_set_env var p).2 = <[var := line]> (environ p) /\
  tty (_set_env var p).2 = rest /\
  prompts (_set_env var p).2 = (prompts p ++ [var +:+ ": "])%list.
Proof.
  intros Hnot Htty Hacc. rewrite (set_env_asks var p Hnot). unfold getpass.
  rewrite Htty.
  set (p1 := {| environ := environ p; tty := rest;
                prompts := (prompts p ++ [var +:+ ": "])%list;
                environ_ok := environ_ok p |}).
  exact (setitem_accepted var line p1 Hacc).
Qed.

(** X2. An empty answer does not satisfy the guard: when the variable is unset
    or empty and the user enters an empty line, [_set_env] returns with the
    variable set to the empty string, and the next call prompts again. *)
Theorem set_env_empty_line (var : string) (p : Process) (rest : list string) :
  name_ok var = true ->
  py_not (environ p !! var) = true ->
  tty p = "" :: rest ->
  let p1 := (_set_env var p).2 in
  (_set_env var p).1 = Returned tt /\
  environ p1 !! var = Some "" /\
  prompts (_set_env var p1).2 = (prompts p ++ [var +:+ ": "; var +:+ ": "])%list.
Proof.
  intros Hname Hnot Htty. cbn zeta.
  assert (Hacc : acceptable var "") by (unfold acceptable; by rewrite Hname).
  destruct (set_env_asked var p "" rest Hnot Htty Hacc) as (Hr & He & Ht & Hp).
  split; [exact Hr|].
  assert (Hempty : environ (_set_env var p).2 !! var = Some "").
  { rewrite He. apply lookup_insert_eq. }
  split; [exact Hempty|].
  assert (Hnot1 : py_not (environ (_set_env var p).2 !! var) = true) by (by rewrite Hempty).
  rewrite (set_env_asks var _ Hnot1). unfold getpass. rewrite Hp, Ht.
  assert (Hall : forall q : outcome unit * Process,
             prompts q.2 = ((prompts p ++ [var +:+ ": "]) ++ [var +:+ ": "])%list ->
             prompts q.2 = (prompts p ++ [var +:+ ": "; var +:+ ": "])%list).
  { intros q ->. by rewrite <- app_assoc. }
  destruct rest as [|line rest]; [by apply Hall|].
  apply Hall.
  match goal with |- context [os_environ_setitem var (Some line) ?q] => set (p2 := q) end.
  destruct (decide (acceptable var line)) as [Hl|Hl].
  - by destruct (setitem_accepted var line p2 Hl) as (_ & _ & _ & ->).
  - by destruct (setitem_refused var line p2 Hl) as [msg ->].
Qed.

Lemma set_env_empty_line_example :
  let p := {| environ := ∅; tty := [""; "sk-test"]; prompts := []; environ_ok := I |} in
  py_not (environ p !! "OPENAI_API_KEY") = true /\
  environ (_set_env "OPENAI_API_KEY" p).2 !! "OPENAI_API_KEY" = Some "".
Proof.
  cbn zeta. split; [reflexivity|].
  refine (proj1 (proj2 (set_env_empty_line "OPENAI_API_KEY" _ ["sk-test"] _ _ _)));
    reflexivity.
Defined.

(** The two assignments that end cell 2. *)
Lemma cell_2_assignments (p : Process) :
  let r := (os_environ_setitem "LANGSMITH_TRACING" (Some "true") ≫= fun _ =>
            os_environ_setitem "LANGSMITH_PROJECT" (Some "langchain-academy")) p in
  r.1 = Returned tt /\
  environ r.2 =
    <["LANGSMITH_PROJECT" := "langchain-academy"]>
      (<["LANGSMITH_TRACING" := "true"]> (environ p)) /\
  tty r.2 = tty p /\ prompts r.2 = prompts p.
Proof.
  cbn zeta. unfold mbind, M_bind.
  assert (H1 : acceptable "LANGSMITH_TRACING" "true") by exact I.
  assert (H2 : acceptable "LANGSMITH_PROJECT" "langchain-academy") by exact I.
  destruct (setitem_accepted _ _ p H1) as (Hr1 & He1 & Ht1 & Hp1).
  destruct (os_environ_setitem "LANGSMITH_TRACING" (Some "true") p) as [o1 p1].
  cbn in Hr1, He1, Ht1, Hp1. subst o1.
  destruct (setitem_accepted _ _ p1 H2) as (Hr2 & He2 & Ht2 & Hp2).
  by rewrite Hr2, He2, Ht2, Hp2, He1, Ht1, Hp1.
Qed.

Lemma cell_2_unfold (p : Process) :
  cell_2 p =
  match _set_env "LANGSMITH_API_KEY" p with
  | (Returned _, p1) =>
      (os_environ_setitem "LANGSMITH_TRACING" (Some "true") ≫= fun _ =>
       os_environ_setitem "LANGSMITH_PROJECT" (Some "langchain-academy")) p1
  | (Raised e, p1) => (Raised e, p1)
  end.
Proof. reflexivity. Qed.

(** X3. Cell 2 as a whole. It fails only when the key has to be asked for,
    either with [EOFError] because there is no input or because the line
    entered contains a NUL character, and then no variable has changed. When
    it returns, LANGSMITH_TRACING is "true" and LANGSMITH_PROJECT is
    "langchain-academy" whatever they were before, LANGSMITH_API_KEY is set
    (to the value it had, when that was not empty), and every other variable
    has the value it had. *)
Theorem cell_2_environment (p : Process) :
  let r := cell_2 p in
  match r.1 with
  | Returned _ =>
      environ r.2 !! "LANGSMITH_TRACING" = Some "true" /\
      environ r.2 !! "LANGSMITH_PROJECT" = Some "langchain-academy" /\
      is_Some (environ r.2 !! "LANGSMITH_API_KEY") /\
      (py_not (environ p !! "LANGSMITH_API_KEY") = false ->
       environ r.2 !! "LANGSMITH_API_KEY" = environ p !! "LANGSMITH_API_KEY") /\
      forall other,
        other ∉ ["LANGSMITH_API_KEY"; "LANGSMITH_TRACING"; "LANGSMITH_PROJECT"] ->
        environ r.2 !! other = environ p !! other
  | Raised e =>
      py_not (environ p !! "LANGSMITH_API_KEY") = true /\
      environ r.2 = environ p /\
      (tty p = [] /\ e = EOFError \/
       exists line rest msg,
         tty p = line :: rest /\ value_ok line = false /\ e = ValueError msg)
  end.
Proof.
  cbn zeta. rewrite cell_2_unfold.
  assert (Hother : forall other,
             other ∉ ["LANGSMITH_API_KEY"; "LANGSMITH_TRACING"; "LANGSMITH_PROJECT"] ->
             other ≠ "LANGSMITH_API_KEY" /\ other ≠ "LANGSMITH_TRACING" /\
             other ≠ "LANGSMITH_PROJECT").
  { intros other Hnotin. repeat split; intros ->; apply Hnotin;
      repeat first [apply list_elem_of_here | apply list_elem_of_further]. }
  assert (Hdone : forall p1 : Process,
             is_Some (environ p1 !! "LANGSMITH_API_KEY") ->
             (py_not (environ p !! "LANGSMITH_API_KEY") = false ->
              environ p1 !! "LANGSMITH_API_KEY" = environ p !! "LANGSMITH_API_KEY") ->
             (forall other, other ≠ "LANGSMITH_API_KEY" ->
                            environ p1 !! other = environ p !! other) ->
             let r := (os_environ_setitem "LANGSMITH_TRACING" (Some "true") ≫= fun _ =>
                       os_environ_setitem "LANGSMITH_PROJECT" (Some "langchain-academy")) p1 in
             match r.1 with
             | Returned _ =>
                 environ r.2 !! "LANGSMITH_TRACING" = Some "true" /\
                 environ r.2 !! "LANGSMITH_PROJECT" = Some "langchain-academy" /\
                 is_Some (environ r.2 !! "LANGSMITH_API_KEY") /\
                 (py_not (environ p !! "LANGSMITH_API_KEY") = false ->
                  environ r.2 !! "LANGSMITH_API_KEY" = environ p !! "LANGSMITH_API_KEY") /\
                 forall other,
                   other ∉ ["LANGSMITH_API_KEY"; "LANGSMITH_TRACING"; "LANGSMITH_PROJECT"] ->
                   environ r.2 !! other = environ p !! other
             | Raised e => False
             end).
  { intros p1 Hkey Hkept Hrest. cbn zeta.
    destruct (cell_2_assignments p1) as (Hr & He & _). cbn zeta in Hr, He.
    rewrite Hr, He.
    split; [by rewrite lookup_insert_ne, lookup_insert_eq|].
    split; [by rewrite lookup_insert_eq|].
    split; [by rewrite !lookup_insert_ne|].
    split; [intros Hnot; rewrite !lookup_insert_ne by done; by apply Hkept|].
    intros other Hnotin. destruct (Hother other Hnotin) as (H1 & H2 & H3).
    rewrite !lookup_insert_ne by done. by apply Hrest. }
  destruct (py_not (environ p !! "LANGSMITH_API_KEY")) eqn:Hnot.
  - destruct (tty p) as [|line rest] eqn:Htty.
    + rewrite (set_env_asks _ p Hnot). unfold getpass. rewrite Htty. cbn.
      split; [done|]. split; [done|]. by left.
    + destruct (value_ok line) eqn:Hline.
      * assert (Hacc : acceptable "LANGSMITH_API_KEY" line)
          by (unfold acceptable; by rewrite Hline).
        destruct (set_env_asked _ p line rest Hnot Htty Hacc) as (Hr & He & _).
        destruct (_set_env "LANGSMITH_API_KEY" p) as [o p1]. cbn in Hr, He. subst o.
        apply Hdone.
        -- rewrite He, lookup_insert_eq. by eexists.
        -- intros [=].
        -- intros other Hne. by rewrite He, lookup_insert_ne.
      * assert (Hacc : ¬ acceptable "LANGSMITH_API_KEY" line)
          by (unfold acceptable; rewrite Hline; intros []).
        rewrite (set_env_asks _ p Hnot). unfold getpass. rewrite Htty.
        match goal with
        | |- context [os_environ_setitem _ (Some line) ?q] =>
            destruct (setitem_refused "LANGSMITH_API_KEY" line q Hacc) as [msg ->]
        end.
        cbn. split; [done|]. split; [done|]. right. by exists line, rest, msg.
  - rewrite (set_env_keeps _ p Hnot). apply Hdone; [|done..].
    destruct (environ p !! "LANGSMITH_API_KEY"); [by eexists|done].
Qed.

(** X4. Cells 2 and 5 in sequence, with neither key set and two lines of
    input without NUL characters: the LangSmith key is asked for first and
    gets the first line, the OpenAI key is asked for second and gets the
    second line. *)
Theorem setup_prompts_in_order (p : Process) (l1 l2 : string) (rest : list string) :
  py_not (environ p !! "LANGSMITH_API_KEY") = true ->
  py_not (environ p !! "OPENAI_API_KEY") = true ->
  tty p = l1 :: l2 :: rest ->
  value_ok l1 = true -> value_ok l2 = true ->
  let r := (cell_2 ≫= fun _ => cell_5) p in
  r.1 = Returned tt /\
  environ r.2 !! "LANGSMITH_API_KEY" = Some l1 /\
  environ r.2 !! "OPENAI_API_KEY" = Some l2 /\
  prompts r.2 = (prompts p ++ ["LANGSMITH_API_KEY: "; "OPENAI_API_KEY: "])%list /\
  tty r.2 = rest.
Proof.
  intros Hn1 Hn2 Htty Hl1 Hl2. cbn zeta.
  assert (Ha1 : acceptable "LANGSMITH_API_KEY" l1) by (unfold acceptable; by rewrite Hl1).
  assert (Ha2 : acceptable "OPENAI_API_KEY" l2) by (unfold acceptable; by rewrite Hl2).
  destruct (set_env_asked _ p l1 (l2 :: rest) Hn1 Htty Ha1) as (Hr1 & He1 & Ht1 & Hp1).
  change ((cell_2 ≫= fun _ => cell_5) p)
    with (match cell_2 p with
          | (Returned _, q) => cell_5 q
          | (Raised e, q) => (Raised e, q)
          end).
  rewrite cell_2_unfold.
  destruct (_set_env "LANGSMITH_API_KEY" p) as [o1 p1]. cbn in Hr1, He1, Ht1, Hp1. subst o1.
  destruct (cell_2_assignments p1) as (Hr2 & He2 & Ht2 & Hp2). cbn zeta in Hr2, He2, Ht2, Hp2.
  destruct ((os_environ_setitem "LANGSMITH_TRACING" (Some "true") ≫= _) p1) as [o2 p2].
  cbn in Hr2, He2, Ht2, Hp2. subst o2.
  assert (Hn2' : py_not (environ p2 !! "OPENAI_API_KEY") = true).
  { rewrite He2, !lookup_insert_ne by done. by rewrite He1, lookup_insert_ne. }
  assert (Htty2 : tty p2 = l2 :: rest) by (by rewrite Ht2, Ht1).
  unfold cell_5.
  destruct (set_env_asked _ p2 l2 rest Hn2' Htty2 Ha2) as (Hr3 & He3 & Ht3 & Hp3).
  rewrite Hr3, He3, Ht3, Hp3. split; [done|].
  split; [by rewrite lookup_insert_ne, He2, !lookup_insert_ne, He1, lookup_insert_eq|].
  split; [by rewrite lookup_insert_eq|]. split; [|done].
  by rewrite Hp2, Hp1, <- app_assoc.
Qed.

Lemma setup_prompts_in_order_example :
  let p := {| environ := ∅; tty := ["ls-key"; "sk-key"]; prompts := [];
              environ_ok := I |} in
  py_not (environ p !! "LANGSMITH_API_KEY") = true /\
  environ ((cell_2 ≫= fun _ => cell_5) p).2 !! "OPENAI_API_KEY" = Some "sk-key".
Proof.
  cbn zeta. split; [reflexivity|].
  refine (proj1 (proj2 (proj2
            (setup_prompts_in_order _ "ls-key" "sk-key" [] _ _ _ _ _)))); reflexivity.
Defined.

(** ** The nodes *)

(** An observation that ignores the calls a program can perform sees nothing
    in its traces. *)
Lemma omap_trace_none {W R B} (h : handler W) (f : event -> option B)
    (P : call -> Prop) (p : prog R) (w : W) :
  (forall c a, P c -> f (Ev c a) = None) ->
  all_calls P p -> omap f (trace_of (run h p w)) = [].
Proof.
  intros Hf Hp. apply omap_none.
  pose proof (all_calls_trace h P p w Hp) as Ht.
  induction Ht as [|[c a] t Hc _ IH]; constructor; [by apply Hf|done].
Qed.

Section MemoryLines.
Context {W : Type} (h : handler W).


Lemma memory_lines_raises items (w : W) :
  Exists (fun item => Item.value item !! "content" = None) items ->
  result_of (run h (memory_lines items) w) = Raised (KeyError "content").
Proof.
  induction 1 as [item items Hc|item items _ IH].
  - cbn [memory_lines]. unfold getitem. by rewrite Hc.
  - cbn [memory_lines]. unfold getitem.
    destruct (Item.value item !! "content") as [c|]; [|done].
    change (result_of (run h (memory_lines items ≫= fun lines =>
                                Ret (("- " +:+ py_str c) :: lines)) w) =
            Raised (KeyError "content")).
    by rewrite run_bind_result, IH.
Qed.

End MemoryLines.

(** X5. Without a "user_id" in the configuration, each node raises
    [KeyError] at its first statement: it calls nothing (no search, no model,
    no extractor, no put) and leaves the world as it was. *)
Theorem nodes_without_user_id {W : Type} (h : handler W) (w : W) state config :
  configurable config !! "user_id" = None ->
  run h (call_model state config) w = (Raised (KeyError "user_id"), w, []) /\
  run h (write_memory state config) w = (Raised (KeyError "user_id"), w, []).
Proof.
  intros Hu. split.
  - pose proof (call_model_run h state config w) as Hrun. by rewrite Hu in Hrun.
  - unfold write_memory. by rewrite (run_getitem_None h _ _ _ w Hu).
Qed.

Lemma nodes_without_user_id_example :
  configurable anonymous_config !! "user_id" = None /\
  run example_world (write_memory example_state anonymous_config) 0 =
  (Raised (KeyError "user_id"), 0, []).
Proof.
  assert (Hu : configurable anonymous_config !! "user_id" = None) by reflexivity.
  split; [exact Hu|].
  exact (proj2 (nodes_without_user_id example_world 0 example_state anonymous_config Hu)).
Defined.

(** X6. If an item returned by the search has no "content" entry,
    [call_model] raises [KeyError] for "content": the search is the only call
    it has made, and the chat model is not invoked. *)
Theorem call_model_missing_content
    {W : Type} (h : handler W) (w : W) state config user_id :
  configurable config !! "user_id" = Some user_id ->
  let c1 := store_search ["memories"; user_id] in
  let a1 := handle h c1 w in
  Exists (fun item => Item.value item !! "content" = None) a1.1 ->
  run h (call_model state config) w = (Raised (KeyError "content"), a1.2, [Ev c1 a1.1]).
Proof.
  intros Hu c1 a1 Hmissing.
  pose proof (call_model_run h state config w) as Hrun.
  rewrite Hu in Hrun. cbn zeta in Hrun. fold c1 a1 in Hrun.
  by rewrite (memory_lines_raises h a1.1 a1.2 Hmissing) in Hrun.
Qed.


(** ** What [write_memory] leaves in the store *)

Lemma iterations_puts ns (l : list (Memory * gmap string string * string)) :
  omap put_of (mjoin (iteration ns <$> l)) =
  (fun x => (ns, pair_key x, model_dump x.1.1)) <$> l.
Proof.
  induction l as [|x l IH]; [done|].
  change (omap put_of (iteration ns x ++ mjoin (iteration ns <$> l))%list =
          (ns, pair_key x, model_dump x.1.1)
            :: ((fun x => (ns, pair_key x, model_dump x.1.1)) <$> l)).
  by rewrite omap_app, IH.
Qed.

Lemma iterations_uuids ns (l : list (Memory * gmap string string * string)) :
  omap uuid_of (mjoin (iteration ns <$> l)) = l.*2.
Proof.
  induction l as [|x l IH]; [done|].
  change (omap uuid_of (iteration ns x ++ mjoin (iteration ns <$> l))%list = x.2 :: l.*2).
  by rewrite omap_app, IH.
Qed.

(** The run of [write_memory]: three calls, then the iterations of the loop
    over the zipped pairs, each with the identifier it drew. *)
Lemma write_memory_iterations {W} (h : handler W) state config user_id (w : W) :
  configurable config !! "user_id" = Some user_id ->
  let ns := ["memories"; user_id] in
  let a1 := handle h (store_search ns) w in
  let c2 := merge_message_runs (SystemMessage TRUSTCALL_INSTRUCTION :: messages state) in
  let a2 := handle h c2 a1.2 in
  let c3 := trustcall_extractor_invoke
              {| in_messages := a2.1; existing := format_existing "Memory" a1.1 |} in
  let a3 := handle h c3 a2.2 in
  let pairs := zip (responses a3.1) (response_metadata a3.1) in
  let r := run h (write_memory state config) w in
  exists drawn,
    length drawn = length pairs /\
    result_of r = Returned None /\
    trace_of r =
      Ev (store_search ns) a1.1 :: Ev c2 a2.1 :: Ev c3 a3.1
        :: mjoin (iteration ns <$> zip pairs drawn).
Proof.
  intros Hu. cbn zeta. rewrite (write_memory_run h state config user_id w Hu).
  cbn zeta.
  set (ns := ["memories"; user_id]).
  set (a1 := handle h (store_search ns) w).
  set (c2 := merge_message_runs _).
  set (a2 := handle h c2 a1.2).
  set (c3 := trustcall_extractor_invoke _).
  set (a3 := handle h c3 a2.2).
  set (pairs := zip (responses a3.1) (response_metadata a3.1)).
  destruct (save_memories_trace h ns pairs a3.2) as [Hlen Htr].
  exists (omap uuid_of (trace_of (run h (save_memories ns pairs) a3.2))).
  split; [exact Hlen|]. split; [done|].
  change (Ev (store_search ns) a1.1 :: Ev c2 a2.1 :: Ev c3 a3.1
            :: trace_of (run h (save_memories ns pairs) a3.2) =
          Ev (store_search ns) a1.1 :: Ev c2 a2.1 :: Ev c3 a3.1
            :: mjoin (iteration ns <$>
                        zip pairs (omap uuid_of (trace_of (run h (save_memories ns pairs) a3.2))))).
  by rewrite <- Htr.
Qed.

(** X8. With a user id, [write_memory] returns [None] whatever the extractor
    answers: it never updates the messages of the conversation. The number of
    its puts is the smaller of the numbers of responses and of metadata
    entries, so a response without metadata is dropped, and there is no put
    when the extractor gives no response. *)
Theorem write_memory_put_count
    {W : Type} (h : handler W) (w : W) state config user_id :
  configurable config !! "user_id" = Some user_id ->
  let r := run h (write_memory state config) w in
  result_of r = Returned None /\
  exists input result,
    omap extraction_of (trace_of r) = [(input, result)] /\
    length (omap put_of (trace_of r)) =
      length (responses result) `min` length (response_metadata result) /\
    length (omap uuid_of (trace_of r)) = length (omap put_of (trace_of r)) /\
    (responses result = [] -> omap put_of (trace_of r) = []).
Proof.
  intros Hu. cbn zeta.
  destruct (write_memory_iterations h state config user_id w Hu)
    as (drawn & Hlen & Hres & Htr).
  cbn zeta in Hlen, Htr.
  set (ns := ["memories"; user_id]) in *.
  set (a1 := handle h (store_search ns) w) in *.
  set (c2 := merge_message_runs _) in *.
  set (a2 := handle h c2 a1.2) in *.
  set (input := {| in_messages := a2.1; existing := format_existing "Memory" a1.1 |}) in *.
  set (a3 := handle h (trustcall_extractor_invoke input) a2.2) in *.
  set (pairs := zip (responses a3.1) (response_metadata a3.1)) in *.
  split; [exact Hres|]. exists input, a3.1. rewrite Htr.
  set (loop := mjoin (iteration ns <$> zip pairs drawn)).
  change (omap extraction_of (Ev (store_search ns) a1.1 :: Ev c2 a2.1
            :: Ev (trustcall_extractor_invoke input) a3.1 :: loop))
    with ((input, a3.1) :: omap extraction_of loop).
  change (omap put_of (Ev (store_search ns) a1.1 :: Ev c2 a2.1
            :: Ev (trustcall_extractor_invoke input) a3.1 :: loop))
    with (omap put_of loop).
  change (omap uuid_of (Ev (store_search ns) a1.1 :: Ev c2 a2.1
            :: Ev (trustcall_extractor_invoke input) a3.1 :: loop))
    with (omap uuid_of loop).
  unfold loop. rewrite iterations_puts, iterations_uuids.
  assert (Hzip : length (zip pairs drawn) = length pairs).
  { rewrite length_zip_with. lia. }
  assert (Hpairs : length pairs =
                   length (responses a3.1) `min` length (response_metadata a3.1)).
  { unfold pairs. apply length_zip_with. }
  repeat split.
  - f_equal. clear. induction (zip pairs drawn) as [|x l IH]; [done|].
    change (omap extraction_of (iteration ns x ++ mjoin (iteration ns <$> l))%list = []).
    by rewrite omap_app, IH.
  - by rewrite length_fmap, Hzip, Hpairs.
  - by rewrite !length_fmap.
  - intros Hempty. unfold pairs. by rewrite Hempty.
Qed.

Lemma write_memory_put_count_example :
  configurable example_config !! "user_id" = Some "1" /\
  result_of (run example_world (write_memory example_state example_config) 0) =
  Returned None.
Proof.
  assert (Hu : configurable example_config !! "user_id" = Some "1") by reflexivity.
  split; [exact Hu|].
  exact (proj1 (write_memory_put_count example_world 0 example_state
                  example_config "1" Hu)).
Defined.

Lemma keys_put_other (s : gmap (list string) (gmap string (gmap string pyval)))
    ns k v ns' :
  ns ≠ ns' -> keys (put s ns k v) ns' = keys s ns'.
Proof. intros Hne. unfold keys. by rewrite put_other_namespace. Qed.

Lemma keys_apply_puts (s : gmap (list string) (gmap string (gmap string pyval)))
    puts ns :
  keys (apply_puts s puts) ns = keys s ns ∪ written_keys ns puts.
Proof.
  revert s. induction puts as [|[[ns' k] v] puts IH]; intros s.
  - unfold written_keys. cbn. by rewrite (right_id_L ∅ (∪)).
  - change (keys (apply_puts (put s ns' k v) puts) ns =
            keys s ns ∪ written_keys ns ((ns', k, v) :: puts)).
    rewrite IH. unfold written_keys. cbn.
    destruct (decide (ns' = ns)) as [->|Hne].
    + rewrite keys_put. cbn.
      by rewrite (comm_L (∪) {[ k ]} (keys s ns)), <- (assoc_L (∪)).
    + by rewrite keys_put_other.
Qed.

Lemma get_apply_puts_untouched
    (s : gmap (list string) (gmap string (gmap string pyval))) puts ns k :
  Forall (fun p => (p.1.1, p.1.2) ≠ (ns, k)) puts ->
  get (apply_puts s puts) ns k = get s ns k.
Proof.
  intros HF. revert s. induction HF as [|[[ns' k'] v] puts Hp _ IH]; intros s; [done|].
  change (get (apply_puts (put s ns' k' v) puts) ns k = get s ns k).
  rewrite IH. by apply get_put_ne.
Qed.

Lemma get_apply_puts_last
    (s : gmap (list string) (gmap string (gmap string pyval))) l1 ns k v l2 :
  Forall (fun p => (p.1.1, p.1.2) ≠ (ns, k)) l2 ->
  get (apply_puts s (l1 ++ (ns, k, v) :: l2)) ns k = Some v.
Proof.
  intros HF. unfold apply_puts. rewrite foldl_app. cbn [foldl].
  fold (apply_puts (put (foldl (fun s p => put s p.1.1 p.1.2 p.2) s l1) ns k v) l2).
  rewrite get_apply_puts_untouched by done. apply get_put_eq.
Qed.

(** The puts of [write_memory] on the in-memory store, from the pairs. *)
Lemma write_memory_store {O} (ho : handler O) s o state config user_id :
  configurable config !! "user_id" = Some user_id ->
  let ns := ["memories"; user_id] in
  let r := run (with_store ho) (write_memory state config) (s, o) in
  exists input result,
    omap extraction_of (trace_of r) = [(input, result)] /\
    let written := zip (zip (responses result) (response_metadata result))
                       (omap uuid_of (trace_of r)) in
    omap put_of (trace_of r) =
      (fun x => (ns, pair_key x, model_dump x.1.1)) <$> written /\
    (world_of r).1 =
      apply_puts s ((fun x => (ns, pair_key x, model_dump x.1.1)) <$> written).
Proof.
  intros Hu. cbn zeta.
  pose proof (with_store_world ho (write_memory state config) s o) as Hworld.
  destruct (write_memory_iterations (with_store ho) state config user_id (s, o) Hu)
    as (drawn & Hlen & Hres & Htr).
  cbn zeta in Hlen, Htr.
  set (ns := ["memories"; user_id]) in *.
  set (a1 := handle (with_store ho) (store_search ns) (s, o)) in *.
  set (c2 := merge_message_runs _) in *.
  set (a2 := handle (with_store ho) c2 a1.2) in *.
  set (input := {| in_messages := a2.1; existing := format_existing "Memory" a1.1 |}) in *.
  set (a3 := handle (with_store ho) (trustcall_extractor_invoke input) a2.2) in *.
  set (pairs := zip (responses a3.1) (response_metadata a3.1)) in *.
  exists input, a3.1. rewrite Hworld, Htr.
  set (loop := mjoin (iteration ns <$> zip pairs drawn)).
  change (omap extraction_of (Ev (store_search ns) a1.1 :: Ev c2 a2.1
            :: Ev (trustcall_extractor_invoke input) a3.1 :: loop))
    with ((input, a3.1) :: omap extraction_of loop).
  change (omap put_of (Ev (store_search ns) a1.1 :: Ev c2 a2.1
            :: Ev (trustcall_extractor_invoke input) a3.1 :: loop))
    with (omap put_of loop).
  change (omap uuid_of (Ev (store_search ns) a1.1 :: Ev c2 a2.1
            :: Ev (trustcall_extractor_invoke input) a3.1 :: loop))
    with (omap uuid_of loop).
  unfold loop. rewrite iterations_puts, iterations_uuids.
  assert (Hdrawn : (zip pairs drawn).*2 = drawn).
  { apply snd_zip. lia. }
  rewrite Hdrawn. split; [|done].
  f_equal. clear. induction (zip pairs drawn) as [|x l IH]; [done|].
  change (omap extraction_of (iteration ns x ++ mjoin (iteration ns <$> l))%list = []).
  by rewrite omap_app, IH.
Qed.

(** X9. On the in-memory store [write_memory] never removes a record. In the
    namespace of the user the keys held afterwards are the keys held before
    together with the keys of the pairs written; the keys of every other
    namespace are unchanged. When the key of every pair is held already (each
    metadata names an existing record), the set of keys is unchanged. *)
Theorem write_memory_keys
    {O : Type} (ho : handler O) s o state config user_id :
  configurable config !! "user_id" = Some user_id ->
  let ns := ["memories"; user_id] in
  let r := run (with_store ho) (write_memory state config) (s, o) in
  let s' := (world_of r).1 in
  exists input result,
    omap extraction_of (trace_of r) = [(input, result)] /\
    let written := zip (zip (responses result) (response_metadata result))
                       (omap uuid_of (trace_of r)) in
    keys s' ns = keys s ns ∪ list_to_set (pair_key <$> written) /\
    (forall ns', ns' ≠ ns -> keys s' ns' = keys s ns') /\
    (forall ns', keys s ns' ⊆ keys s' ns') /\
    (Forall (fun x => pair_key x ∈ keys s ns) written -> keys s' ns = keys s ns).
Proof.
  intros Hu. cbn zeta.
  destruct (write_memory_store ho s o state config user_id Hu)
    as (input & result & Hex & _ & Hworld).
  exists input, result. split; [exact Hex|]. cbn zeta in *.
  set (ns := ["memories"; user_id]) in *.
  set (written := zip _ _) in *.
  rewrite Hworld.
  assert (Hw : forall ns',
             written_keys ns' ((fun x => (ns, pair_key x, model_dump x.1.1)) <$> written) =
             if decide (ns = ns') then list_to_set (pair_key <$> written) else ∅).
  { intros ns'. unfold written_keys. clear.
    induction written as [|x l IH]; cbn; [by destruct (decide (ns = ns'))|].
    destruct (decide (ns = ns')) as [->|Hne]; cbn; [by rewrite IH|done]. }
  assert (Hkeys : keys (apply_puts s ((fun x => (ns, pair_key x, model_dump x.1.1)) <$> written)) ns =
                  keys s ns ∪ list_to_set (pair_key <$> written)).
  { rewrite keys_apply_puts, Hw. by rewrite decide_True. }
  split; [exact Hkeys|]. split; [|split].
  - intros ns' Hne. rewrite keys_apply_puts, Hw.
    rewrite decide_False by done. by rewrite (right_id_L ∅ (∪)).
  - intros ns'. rewrite keys_apply_puts. apply union_subseteq_l.
  - intros Hall. rewrite Hkeys, (comm_L (∪)). apply subseteq_union_1_L.
    intros k Hk. apply elem_of_list_to_set, list_elem_of_fmap in Hk as (x & -> & Hx).
    rewrite Forall_forall in Hall. by apply Hall.
Qed.

(** X10. On the in-memory store, after [write_memory] the dump of a response
    can be read back under the key of its pair, unless a later pair was
    written under the same key (the last write wins); a key under which no
    pair was written keeps the value it had, or stays absent. *)
Theorem write_memory_read_back
    {O : Type} (ho : handler O) s o state config user_id :
  configurable config !! "user_id" = Some user_id ->
  let ns := ["memories"; user_id] in
  let r := run (with_store ho) (write_memory state config) (s, o) in
  let s' := (world_of r).1 in
  exists input result,
    omap extraction_of (trace_of r) = [(input, result)] /\
    let written := zip (zip (responses result) (response_metadata result))
                       (omap uuid_of (trace_of r)) in
    (forall i x,
        written !! i = Some x ->
        (forall j y, i < j -> written !! j = Some y -> pair_key y ≠ pair_key x) ->
        get s' ns (pair_key x) = Some {[ "content" := VStr (content x.1.1) ]}) /\
    (forall k, k ∉ pair_key <$> written -> get s' ns k = get s ns k).
Proof.
  intros Hu. cbn zeta.
  destruct (write_memory_store ho s o state config user_id Hu)
    as (input & result & Hex & _ & Hworld).
  exists input, result. split; [exact Hex|]. cbn zeta in *.
  set (ns := ["memories"; user_id]) in *.
  set (written := zip _ _) in *.
  rewrite Hworld. clear Hworld Hex. split.
  - intros i x Hi Hlater.
    rewrite <- (take_drop_middle written i x Hi), fmap_app, fmap_cons.
    apply get_apply_puts_last.
    apply Forall_fmap, Forall_forall. intros y Hy.
    apply list_elem_of_lookup in Hy as [j Hj]. rewrite lookup_drop in Hj.
    cbn. intros [= Heq]. by apply (Hlater (S i + j) y); [lia|..].
  - intros k Hk. apply get_apply_puts_untouched.
    apply Forall_fmap, Forall_forall. intros x Hx. cbn. intros [= Heq].
    apply Hk. apply list_elem_of_fmap. by exists x.
Qed.

(** ** Turns on the in-memory store *)










(** When [call_model] returns in a turn, the turn is the two nodes in a row. *)
Lemma invoke_returned {W} (h : handler W) g state config (w : W) upd user_id thread_id :
  graph = Returned g ->
  configurable config !! "thread_id" = Some thread_id ->
  configurable config !! "user_id" = Some user_id ->
  let a0 := handle h (node_started "call_model") w in
  let r1 := run h (call_model state config) a0.2 in
  result_of r1 = Returned upd ->
  let a1 := handle h (node_finished "call_model") (world_of r1) in
  let state1 := add_messages state (option_list upd) in
  let a2 := handle h (node_started "write_memory") a1.2 in
  let r2 := run h (write_memory state1 config) a2.2 in
  let a3 := handle h (node_finished "write_memory") (world_of r2) in
  run h (invoke g state config) w =
  (Returned state1, a3.2,
   (Ev (node_started "call_model") a0.1 :: trace_of r1 ++
    Ev (node_finished "call_model") a1.1 :: Ev (node_started "write_memory") a2.1
      :: trace_of r2 ++ [Ev (node_finished "write_memory") a3.1])%list).
Proof.
  intros Hg Hthread Hu a0 r1 Hr1 a1 state1 a2 r2 a3.
  rewrite (invoke_run h g state config thread_id w Hg Hthread). clear Hg. cbn zeta.
  rewrite (run_task_run h "call_model" call_model state config w). cbn zeta.
  fold a0. fold r1. rewrite Hr1. cbv beta iota zeta. project_run.
  cbv beta iota zeta. fold a1. fold state1.
  rewrite (run_task_run h "write_memory" write_memory state1 config a1.2). cbn zeta.
  fold a2. fold r2.
  assert (Hr2 : result_of r2 = Returned None).
  { unfold r2. by rewrite (write_memory_run h state1 config user_id a2.2 Hu). }
  rewrite Hr2. cbv beta iota zeta. project_run. cbv beta iota zeta. fold a3.
  f_equal; [f_equal|].
  - f_equal. unfold state1, add_messages. cbn. by rewrite app_nil_r.
  - cbn. by rewrite <- !app_assoc.
Qed.




(** ** What a turn adds to the conversation *)

Lemma invoke_raised {W} (h : handler W) g state config (w : W) e thread_id :
  graph = Returned g ->
  configurable config !! "thread_id" = Some thread_id ->
  result_of (run h (call_model state config) (handle h (node_started "call_model") w).2)
  = Raised e ->
  result_of (run h (invoke g state config) w) = Raised e.
Proof.
  intros Hg Hthread Hr1.
  rewrite (invoke_run h g state config thread_id w Hg Hthread). clear Hg. cbn zeta.
  rewrite (run_task_run h "call_model" call_model state config w). cbn zeta.
  rewrite Hr1. reflexivity.
Qed.

(** A run of [call_model] that returns has searched and asked the model. *)
Lemma call_model_returned {W} (h : handler W) state config (w : W) upd :
  result_of (run h (call_model state config) w) = Returned upd ->
  exists user_id system,
    configurable config !! "user_id" = Some user_id /\
    let c1 := store_search ["memories"; user_id] in
    let a1 := handle h c1 w in
    let c2 := model_invoke (SystemMessage system :: messages state) in
    let a2 := handle h c2 a1.2 in
    upd = Some {| upd_messages := a2.1 |} /\
    trace_of (run h (call_model state config) w) = [Ev c1 a1.1; Ev c2 a2.1].
Proof.
  intros Hr. pose proof (call_model_run h state config w) as Hrun.
  destruct (configurable config !! "user_id") as [user_id|];
    [|rewrite Hrun in Hr; discriminate Hr].
  cbn zeta in Hrun.
  destruct (result_of (run h (memory_lines _) _)) as [lines|e];
    [|rewrite Hrun in Hr; discriminate Hr].
  exists user_id, (MODEL_SYSTEM_MESSAGE (String.concat nl lines)).
  split; [done|]. cbn zeta. rewrite Hrun in Hr |- *.
  split; [|done]. by injection Hr as <-.
Qed.

Lemma save_memories_quiet {W} (h : handler W) ns pairs (w : W) :
  omap model_call_of (trace_of (run h (save_memories ns pairs) w)) = [] /\
  omap merge_call_of (trace_of (run h (save_memories ns pairs) w)) = [].
Proof.
  split.
  - apply (omap_trace_none h model_call_of
             (fun c => match c with uuid4 | store_put _ _ _ => True | _ => False end)).
    + by intros [] a.
    + by apply save_memories_calls.
  - apply (omap_trace_none h merge_call_of
             (fun c => match c with uuid4 | store_put _ _ _ => True | _ => False end)).
    + by intros [] a.
    + by apply save_memories_calls.
Qed.

(** X12. A turn that returns has invoked the chat model exactly once, with one
    system message followed by the messages of the state, and its final state
    is the state with the model's answer appended: [write_memory] adds no
    message. [write_memory] reflects on the conversation with that answer
    included: the messages it passes to [merge_message_runs] are the Trustcall
    instruction followed by the messages of the final state. *)
Theorem turn_appends_reply
    {W : Type} (h : handler W) (w : W) g state config final :
  graph = Returned g ->
  let r := run h (invoke g state config) w in
  result_of r = Returned final ->
  exists system reply merged,
    omap model_call_of (trace_of r) =
      [(SystemMessage system :: messages state, reply)] /\
    messages final = (messages state ++ [reply])%list /\
    omap merge_call_of (trace_of r) =
      [(SystemMessage TRUSTCALL_INSTRUCTION :: messages final, merged)].
Proof.
  intros Hg. cbn zeta. intros Hfinal.
  destruct (configurable config !! "thread_id") as [thread_id|] eqn:Hthread.
  2: { destruct (invoke_no_thread h g state config w Hg Hthread) as [e He].
       rewrite He in Hfinal. discriminate Hfinal. }
  set (a0 := handle h (node_started "call_model") w).
  destruct (result_of (run h (call_model state config) a0.2)) as [upd|e] eqn:Hr1.
  2: { rewrite (invoke_raised h g state config w e thread_id Hg Hthread Hr1) in Hfinal.
       discriminate Hfinal. }
  destruct (call_model_returned h state config a0.2 upd Hr1)
    as (user_id & system & Hu & Hupd & Htr1).
  cbn zeta in Hupd, Htr1.
  rewrite (invoke_returned h g state config w upd user_id thread_id Hg Hthread Hu Hr1)
    in Hfinal |- *.
  clear Hg. project_run. injection Hfinal as <-. fold a0.
  rewrite Htr1, Hupd.
  set (a1 := handle h (store_search ["memories"; user_id]) a0.2) in *.
  set (c2 := model_invoke (SystemMessage system :: messages state)) in *.
  set (a2 := handle h c2 a1.2) in *.
  set (state1 := add_messages state (option_list (Some {| upd_messages := a2.1 |}))).
  set (b1 := handle h (node_finished "call_model") _).
  set (b2 := handle h (node_started "write_memory") b1.2).
  rewrite (write_memory_run h state1 config user_id b2.2 Hu). cbn zeta. project_run.
  set (d1 := handle h (store_search ["memories"; user_id]) b2.2).
  set (m := merge_message_runs (SystemMessage TRUSTCALL_INSTRUCTION :: messages state1)).
  set (d2 := handle h m d1.2).
  set (x := trustcall_extractor_invoke _).
  set (d3 := handle h x d2.2).
  set (loop := run h (save_memories _ _) d3.2).
  destruct (save_memories_quiet h ["memories"; user_id]
              (zip (responses d3.1) (response_metadata d3.1)) d3.2) as [Hq1 Hq2].
  fold loop in Hq1, Hq2.
  set (b3 := handle h (node_finished "write_memory") (world_of loop)).
  exists system, a2.1, d2.1.
  split; [|split].
  - change (omap model_call_of
              ([Ev (node_started "call_model") a0.1;
                Ev (store_search ["memories"; user_id]) a1.1; Ev c2 a2.1;
                Ev (node_finished "call_model") b1.1;
                Ev (node_started "write_memory") b2.1;
                Ev (store_search ["memories"; user_id]) d1.1; Ev m d2.1; Ev x d3.1]
               ++ (trace_of loop ++ [Ev (node_finished "write_memory") b3.1]))%list =
            [(SystemMessage system :: messages state, a2.1)]).
    rewrite !omap_app, Hq1. reflexivity.
  - reflexivity.
  - change (omap merge_call_of
              ([Ev (node_started "call_model") a0.1;
                Ev (store_search ["memories"; user_id]) a1.1; Ev c2 a2.1;
                Ev (node_finished "call_model") b1.1;
                Ev (node_started "write_memory") b2.1;
                Ev (store_search ["memories"; user_id]) d1.1; Ev m d2.1; Ev x d3.1]
               ++ (trace_of loop ++ [Ev (node_finished "write_memory") b3.1]))%list =
            [(SystemMessage TRUSTCALL_INSTRUCTION :: messages state1, d2.1)]).
    rewrite !omap_app, Hq2. reflexivity.
Qed.

Lemma turn_appends_reply_example :
  exists g final, graph = Returned g /\
    result_of (run example_world (invoke g example_state example_config) 0) =
    Returned final /\
    messages final = [HumanMessage "Hi, my name is Lance"; example_reply].
Proof.
  eexists. exists {| messages := [HumanMessage "Hi, my name is Lance"; example_reply] |}.
  split; [exact graph_returns|].
  match goal with
  | |- ?A /\ _ => assert (Hfinal : A) by (vm_compute; reflexivity)
  end.
  split; [exact Hfinal|].
  destruct (turn_appends_reply example_world 0 _ example_state example_config _
              graph_returns Hfinal) as (system & reply & merged & _ & Hm & _).
  reflexivity.
Defined.

(** ** The other cells *)

(** X13. Cell 20 gives [None] exactly for an empty list of responses.
    Otherwise it gives one entry per response, in order; the id of the entry at
    position i is the decimal of i, so the ids are pairwise distinct and an id
    names one memory; the entry carries the tool name "Memory" and the dump of
    the response. *)
Theorem existing_memories_ids (responses : list Memory) :
  (existing_memories responses = None <-> responses = []) /\
  forall l, existing_memories responses = Some l ->
    length l = length responses /\
    NoDup (l.*1.*1) /\
    forall i memory,
      responses !! i = Some memory ->
      l !! i = Some (pretty i, "Memory", {[ "content" := VStr (content memory) ]}).
Proof.
  split.
  - unfold existing_memories. by destruct responses.
  - intros l Hl.
    assert (Himap : l = imap (fun i memory => (pretty i, "Memory", model_dump memory))
                             responses).
    { unfold existing_memories in Hl. destruct responses; [done|]. by injection Hl as <-. }
    subst l. clear Hl. split; [apply length_imap|]. split.
    + rewrite <- list_fmap_compose, fmap_imap.
      rewrite (imap_ext _ (fun i _ => pretty i) responses) by done.
      rewrite imap_seq_0. apply NoDup_fmap_2; [apply _|apply NoDup_seq].
    + intros i memory Hi. by rewrite list_lookup_imap, Hi.
Qed.

(** X14. Cell 11 saves the first two memories of the collection under the two
    identifiers it draws, in the namespace ("1", "memories"). With fewer than
    two memories an index is out of range: with none, the cell stops after
    drawing one identifier and nothing is saved; with one, that memory has
    been saved before the cell stops. Memories after the second are not
    saved. *)
Theorem cell_11_saves_two {W : Type} (h : handler W) (w : W) memory_collection :
  let r := run h (cell_11 memory_collection) w in
  match memories memory_collection with
  | [] =>
      result_of r = Returned (inl list_index_out_of_range) /\
      length (omap uuid_of (trace_of r)) = 1 /\
      omap put_of (trace_of r) = []
  | [m0] =>
      result_of r = Returned (inl list_index_out_of_range) /\
      exists k0 k1,
        omap uuid_of (trace_of r) = [k0; k1] /\
        omap put_of (trace_of r) = [(["1"; "memories"], k0, model_dump m0)]
  | m0 :: m1 :: _ =>
      result_of r = Returned (inr tt) /\
      exists k0 k1,
        omap uuid_of (trace_of r) = [k0; k1] /\
        omap put_of (trace_of r) =
          [(["1"; "memories"], k0, model_dump m0);
           (["1"; "memories"], k1, model_dump m1)]
  end.
Proof.
  cbn zeta. unfold cell_11.
  destruct (memories memory_collection) as [|m0 [|m1 rest]]; cbn.
  - done.
  - split; [done|]. by eexists _, _.
  - split; [done|]. by eexists _, _.
Qed.

(** ** Examples *)

Lemma call_model_missing_content_example :
  let s : gmap (list string) (gmap string (gmap string pyval)) :=
    put ∅ ["memories"; "1"] "0" {[ "topic" := VStr "bikes" ]} in
  configurable example_config !! "user_id" = Some "1" /\
  result_of (run (with_store example_world) (call_model example_state example_config)
               (s, 0)) =
  Raised (KeyError "content").
Proof.
  cbn zeta.
  assert (Hu : configurable example_config !! "user_id" = Some "1") by reflexivity.
  split; [exact Hu|].
  rewrite (call_model_missing_content (with_store example_world)
             (put ∅ ["memories"; "1"] "0" {[ "topic" := VStr "bikes" ]}, 0)
             example_state example_config "1" Hu); [reflexivity|].
  apply Exists_exists.
  exists (Item.mk ["memories"; "1"] "0" {[ "topic" := VStr "bikes" ]}).
  split; [|reflexivity].
  vm_compute. apply list_elem_of_here.
Defined.


Lemma write_memory_keys_example :
  configurable example_config !! "user_id" = Some "1" /\
  keys example_store ["memories"; "1"] ⊆
  keys (world_of (run (with_store example_world)
                    (write_memory example_state example_config)
                    (example_store, 0))).1 ["memories"; "1"].
Proof.
  assert (Hu : configurable example_config !! "user_id" = Some "1") by reflexivity.
  split; [exact Hu|].
  destruct (write_memory_keys example_world example_store 0 example_state
              example_config "1" Hu) as (input & result & _ & _ & _ & Hsub & _).
  apply Hsub.
Defined.

Lemma write_memory_read_back_example :
  configurable example_config !! "user_id" = Some "1" /\
  exists input result,
    omap extraction_of
      (trace_of (run (with_store example_world)
                   (write_memory example_state example_config)
                   (example_store, 0))) = [(input, result)].
Proof.
  assert (Hu : configurable example_config !! "user_id" = Some "1") by reflexivity.
  split; [exact Hu|].
  destruct (write_memory_read_back example_world example_store 0 example_state
              example_config "1" Hu) as (input & result & Hex & _).
  by exists input, result.
Defined.
